(** * P3 power HAL (power/power.c): a shallow embedding and its properties

    The module keeps three 10-byte character arrays and one flag, and
    drives four sysfs attributes through [sysfs_read] and [sysfs_write].
    The embedding keeps that shape:

    - character arrays are [list ascii], the C library functions used on
      them ([strlen], [strncmp], [memset], [memcpy]) are written out and
      return [None] where C leaves the behaviour undefined (a read or a
      write past the end of an array, a string without terminator);
    - the kernel side is a [world]: the attribute values, a script of
      injected system-call failures, the record of the [sysfs_read] and
      [sysfs_write] calls made so far, and the log;
    - the code itself runs in a state-and-failure monad [prog] over the
      globals and the world. *)

From Stdlib Require Import ZArith Lia List Ascii String Bool.
From stdpp Require Import base option list strings gmap.

Open Scope string_scope.
Open Scope list_scope.
Open Scope Z_scope.

(** ** C strings and the C library *)

Definition NUL : ascii := Ascii.zero.

(** The characters of a string, without terminator. *)
Definition chars (s : string) : list ascii := list_ascii_of_string s.

(** A string literal as C stores it: the characters and the terminator. *)
Definition literal (s : string) : list ascii := chars s ++ [NUL].

(** [static char x[n] = "s"]: the characters, the rest of the array zero. *)
Definition char_array (n : nat) (s : string) : list ascii :=
  chars s ++ replicate (n - length (chars s)) NUL.

(** The value of a character as [unsigned char]. *)
Definition uchar (c : ascii) : Z := Z.of_N (N_of_ascii c).

(** [strlen]: the index of the first NUL; undefined when the array holds none. *)
Fixpoint strlen (s : list ascii) : option nat :=
  match s with
  | [] => None
  | c :: s' => if decide (c = NUL) then Some 0%nat else S <$> strlen s'
  end.

(** [strncmp]: compares at most [n] characters and stops after a NUL;
    undefined when it has to read past the end of an array. *)
Fixpoint strncmp (s1 s2 : list ascii) (n : nat) {struct n} : option Z :=
  match n with
  | O => Some 0
  | S n' =>
      match s1, s2 with
      | c1 :: r1, c2 :: r2 =>
          if decide (c1 = c2)
          then if decide (c1 = NUL) then Some 0 else strncmp r1 r2 n'
          else Some (uchar c1 - uchar c2)
      | _, _ => None
      end
  end.

(** [memset (s + off, c, n)]. *)
Definition memset (s : list ascii) (off : nat) (c : ascii) (n : nat)
  : option (list ascii) :=
  if decide (off + n ≤ length s)%nat
  then Some (take off s ++ replicate n c ++ drop (off + n) s)
  else None.

(** [memcpy (dst, src, n)]. *)
Definition memcpy (dst src : list ascii) (n : nat) : option (list ascii) :=
  if decide (n ≤ length dst ∧ n ≤ length src)%nat
  then Some (take n src ++ drop n dst)
  else None.

(** ** Constants of the module *)

Definition CPU0_SCALINGMAXFREQ_PATH : string :=
  "/sys/devices/system/cpu/cpu0/cpufreq/scaling_max_freq".
Definition CPU1_SCALINGMAXFREQ_PATH : string :=
  "/sys/devices/system/cpu/cpu1/cpufreq/scaling_max_freq".
Definition TOUCH_SUSPEND_PATH : string :=
  "/sys/bus/i2c/drivers/sec_touch/4-004c/mxt1386/suspended".
Definition MPU3050_SUSPEND_PATH : string :=
  "/sys/bus/i2c/drivers/mpu3050/0-0068/mpu3050/suspended".

(** Of the three macros the code uses [LOW_POWER_MAX_FREQ] only. *)
Definition LOW_POWER_MAX_FREQ : string := "456000".
Definition LOW_POWER_MIN_FREQ : string := "150000".
Definition NORMAL_MAX_FREQ : string := "1000000".

Definition MAX_BUF_SZ : nat := 10.

(** [screen_off_max_freq] is a static array that no function assigns. *)
Definition screen_off_max_freq : list ascii := char_array MAX_BUF_SZ "456000".

(** ** The kernel side *)

Inductive errno := EINTR | ENOENT | EACCES | EIO | EINVAL.

Global Instance errno_eq_dec : EqDecision errno.
Proof. solve_decision. Defined.

(** One entry per call of [sysfs_read] and [sysfs_write]: the arguments
    and the value returned. *)
Inductive event :=
  | SysfsRead (path : string) (size : nat) (ret : Z)
  | SysfsWrite (path : string) (s : list ascii) (ret : Z).

(** The log lines of the module. *)
Inductive logline :=
  | ALOGE_opening (path : string) (e : errno)
  | ALOGE_writing (path : string) (e : errno)
  | ALOGI_stored (s : list ascii)
  | ALOGV_launch.

(** [files] maps the path of each attribute that exists to its value;
    [script] holds the outcome forced on each coming system call
    ([None], or no entry left: the call is served); [trace] and [logcat]
    grow at their end. *)
Record world := World {
  files : gmap string (list ascii);
  script : list (option errno);
  trace : list event;
  logcat : list logline
}.

Definition with_files (f : gmap string (list ascii)) (w : world) : world :=
  World f (script w) (trace w) (logcat w).
Definition with_script (sc : list (option errno)) (w : world) : world :=
  World (files w) sc (trace w) (logcat w).
Definition record_event (e : event) (w : world) : world :=
  World (files w) (script w) (trace w ++ [e]) (logcat w).
Definition log (l : logline) (w : world) : world :=
  World (files w) (script w) (trace w) (logcat w ++ [l]).

(** The outcome forced on the next system call. *)
Definition inject (w : world) : option errno * world :=
  match script w with
  | [] => (None, w)
  | f :: sc => (f, with_script sc w)
  end.

(** [open(path, O_RDONLY)] and [open(path, O_WRONLY)]: no [O_CREAT], so a
    missing attribute is [ENOENT].  A descriptor is the path it was opened
    on: every function closes it before it returns. *)
Definition sys_open (path : string) (w : world) : (errno + string) * world :=
  let '(f, w1) := inject w in
  match f with
  | Some e => (inl e, w1)
  | None =>
      match files w1 !! path with
      | Some _ => (inr path, w1)
      | None => (inl ENOENT, w1)
      end
  end.

(** [do len = read(fd, buf, size); while (len < 0 && errno == EINTR)]:
    every turn of the loop is one [read], which takes one entry of the
    script; a served read of an attribute returns its first [size] bytes. *)
Fixpoint read_retry (data : list ascii) (size : nat) (sc : list (option errno))
  : (errno + list ascii) * list (option errno) :=
  match sc with
  | [] => (inr (take size data), [])
  | None :: sc' => (inr (take size data), sc')
  | Some e :: sc' =>
      if decide (e = EINTR) then read_retry data size sc' else (inl e, sc')
  end.

(** [write(fd, data, n)]: a served write stores the bytes as the value of
    the attribute. *)
Definition sys_write (fd : string) (data : list ascii) (w : world)
  : (errno + nat) * world :=
  let '(f, w1) := inject w in
  match f with
  | Some e => (inl e, w1)
  | None => (inr (length data), with_files (<[fd := data]> (files w1)) w1)
  end.

(** ** SysfsAccessor *)

(** [sysfs_read (path, buf, size)] returns the value returned, the array
    [buf] after the call and the world.  The [memset] runs under the
    guard of the source, [len >= 0 && len < size]. *)
Definition sysfs_read (path : string) (buf : list ascii) (size : nat) (w : world)
  : option (Z * list ascii * world) :=
  match sys_open path w with
  | (inl _, w1) => Some (-1, buf, record_event (SysfsRead path size (-1)) w1)
  | (inr fd, w1) =>
      let '(r, sc) := read_retry (default [] (files w1 !! fd)) size (script w1) in
      let w2 := with_script sc w1 in
      '(len, buf1) ←
        match r with
        | inl _ => Some (-1, buf)
        | inr chunk =>
            if decide (length chunk ≤ length buf)%nat
            then Some (Z.of_nat (length chunk), chunk ++ drop (length chunk) buf)
            else None
        end;
      buf2 ←
        (if decide (0 ≤ len ∧ len < Z.of_nat size)
         then memset buf1 (Z.to_nat len) NUL (size - Z.to_nat len)
         else Some buf1);
      Some (len, buf2, record_event (SysfsRead path size len) w2)
  end.

(** [sysfs_write (path, s)] returns the value returned and the world.
    [strlen (s)] is evaluated for the [write], after the open succeeded;
    any result of [write] that is not negative counts as success. *)
Definition sysfs_write (path : string) (s : list ascii) (w : world)
  : option (Z * world) :=
  match sys_open path w with
  | (inl e, w1) =>
      Some (-1, record_event (SysfsWrite path s (-1)) (log (ALOGE_opening path e) w1))
  | (inr fd, w1) =>
      n ← strlen s;
      match sys_write fd (take n s) w1 with
      | (inl e, w2) =>
          Some (-1, record_event (SysfsWrite path s (-1)) (log (ALOGE_writing path e) w2))
      | (inr _, w2) => Some (0, record_event (SysfsWrite path s 0) w2)
      end
  end.

(** ** FrequencyState *)

Record globals := Globals {
  scaling_max_freq : list ascii;
  normal_max_freq : list ascii;
  low_power_mode : bool
}.

(** The statics as the file initialises them. *)
Definition initial_globals : globals :=
  Globals (char_array MAX_BUF_SZ "1000000") (char_array MAX_BUF_SZ "1000000") false.

(** The [char *] handed to [store_max_freq]: one of the two arrays. *)
Inductive target := Scaling_max_freq | Normal_max_freq.

Definition deref (t : target) (g : globals) : list ascii :=
  match t with
  | Scaling_max_freq => scaling_max_freq g
  | Normal_max_freq => normal_max_freq g
  end.

Definition assign (t : target) (v : list ascii) (g : globals) : globals :=
  match t with
  | Scaling_max_freq => Globals v (normal_max_freq g) (low_power_mode g)
  | Normal_max_freq => Globals (scaling_max_freq g) v (low_power_mode g)
  end.

Definition set_low_power_mode (b : bool) (g : globals) : globals :=
  Globals (scaling_max_freq g) (normal_max_freq g) b.

(** ** The monad of the code: globals and world threaded, [None] for
    undefined behaviour. *)

Definition prog (A : Type) : Type := globals → world → option (A * globals * world).

Definition ret {A} (a : A) : prog A := λ g w, Some (a, g, w).

Definition bind {A B} (m : prog A) (k : A → prog B) : prog B :=
  λ g w, match m g w with
         | Some (a, g', w') => k a g' w'
         | None => None
         end.

(** A call that works on the world alone. *)
Definition io {A} (f : world → option (A * world)) : prog A :=
  λ g w, match f w with
         | Some (a, w') => Some (a, g, w')
         | None => None
         end.

(** A C library call on values. *)
Definition libc {A} (o : option A) : prog A :=
  λ g w, match o with
         | Some a => Some (a, g, w)
         | None => None
         end.

Definition get_globals : prog globals := λ g w, Some (g, g, w).
Definition put_globals (g' : globals) : prog unit := λ _ w, Some (tt, g', w).

Notation "x <~ m ;; k" := (bind m (λ x, k))
  (at level 100, m at next level, right associativity).
Notation "m ;;; k" := (bind m (λ _, k))
  (at level 100, right associativity).

(** The contents of the local [char buf[MAX_BUF_SZ]] of [store_max_freq]
    before the read are indeterminate; [store_max_freq_with] takes them as
    [junk], and [store_max_freq_junk] below shows that they never matter. *)
Definition store_max_freq_with (junk : list ascii) (max_freq : target) : prog unit :=
  r <~ io (λ w, '(len, buf, w') ← sysfs_read CPU0_SCALINGMAXFREQ_PATH junk MAX_BUF_SZ w;
                Some ((len, buf), w')) ;;
  let '(len, buf) := r in
  if decide (len ≠ -1) then
    n <~ libc (strlen screen_off_max_freq) ;;
    c <~ libc (strncmp buf screen_off_max_freq n) ;;
    if decide (c ≠ 0) then
      g <~ get_globals ;;
      if negb (low_power_mode g) then
        v <~ libc (memcpy (deref max_freq g) buf MAX_BUF_SZ) ;;
        put_globals (assign max_freq v g)
      else ret tt
    else ret tt
  else ret tt.

Definition store_max_freq : target → prog unit :=
  store_max_freq_with (replicate MAX_BUF_SZ NUL).

(** ** PowerPolicy *)

(** [sysfs_write] as a statement: the value returned is dropped. *)
Definition do_sysfs_write (path : string) (s : list ascii) : prog unit :=
  io (λ w, '(_, w') ← sysfs_write path s w; Some (tt, w')).

(** [ALOGI("%s: stored scaling_max_freq = %s", __FUNCTION__, scaling_max_freq)]:
    the [%s] reads the array up to its terminator. *)
Definition p3_power_init : prog unit :=
  store_max_freq Scaling_max_freq ;;;
  g <~ get_globals ;;
  n <~ libc (strlen (scaling_max_freq g)) ;;
  io (λ w, Some (tt, log (ALOGI_stored (take n (scaling_max_freq g))) w)).

Definition p3_power_set_interactive (on : Z) : prog unit :=
  g <~ get_globals ;;
  if decide (on = 0) then
    store_max_freq Scaling_max_freq ;;;
    do_sysfs_write CPU0_SCALINGMAXFREQ_PATH screen_off_max_freq ;;;
    do_sysfs_write CPU1_SCALINGMAXFREQ_PATH screen_off_max_freq ;;;
    do_sysfs_write TOUCH_SUSPEND_PATH (literal "1") ;;;
    do_sysfs_write MPU3050_SUSPEND_PATH (literal "1")
  else if low_power_mode g then
    store_max_freq Scaling_max_freq ;;;
    do_sysfs_write CPU0_SCALINGMAXFREQ_PATH (literal LOW_POWER_MAX_FREQ) ;;;
    do_sysfs_write CPU1_SCALINGMAXFREQ_PATH (literal LOW_POWER_MAX_FREQ)
  else
    do_sysfs_write CPU0_SCALINGMAXFREQ_PATH (scaling_max_freq g) ;;;
    do_sysfs_write CPU1_SCALINGMAXFREQ_PATH (scaling_max_freq g) ;;;
    do_sysfs_write TOUCH_SUSPEND_PATH (literal "0") ;;;
    do_sysfs_write MPU3050_SUSPEND_PATH (literal "0").

(** [power_hint_t] comes from the platform header [hardware/power.h]; the
    switch names four of its enumerators, of which [POWER_HINT_INTERACTION]
    sits under [#if 0]; every other value is [POWER_HINT_other]. *)
Inductive power_hint_t :=
  | POWER_HINT_VSYNC
  | POWER_HINT_INTERACTION
  | POWER_HINT_LOW_POWER
  | POWER_HINT_LAUNCH
  | POWER_HINT_other (code : Z).

Global Instance power_hint_eq_dec : EqDecision power_hint_t.
Proof. solve_decision. Defined.

(** [data] is the [void *] of the hint, tested against the null pointer.
    The mutex of the module is taken and released around the low-power
    case; one call at a time runs here, so it is not part of the state. *)
Definition p3_power_hint (hint : power_hint_t) (data : Z) : prog unit :=
  match hint with
  | POWER_HINT_VSYNC => ret tt
  | POWER_HINT_LOW_POWER =>
      if decide (data ≠ 0) then
        store_max_freq Normal_max_freq ;;;
        g <~ get_globals ;;
        put_globals (set_low_power_mode true g) ;;;
        do_sysfs_write CPU0_SCALINGMAXFREQ_PATH (literal LOW_POWER_MAX_FREQ) ;;;
        do_sysfs_write CPU1_SCALINGMAXFREQ_PATH (literal LOW_POWER_MAX_FREQ)
      else
        g <~ get_globals ;;
        put_globals (set_low_power_mode false g) ;;;
        g <~ get_globals ;;
        do_sysfs_write CPU0_SCALINGMAXFREQ_PATH (normal_max_freq g) ;;;
        do_sysfs_write CPU1_SCALINGMAXFREQ_PATH (normal_max_freq g)
  | POWER_HINT_LAUNCH => io (λ w, Some (tt, log ALOGV_launch w))
  | POWER_HINT_INTERACTION | POWER_HINT_other _ => ret tt
  end.

(** The three entry points of the module, and a call of one of them. *)
Inductive call :=
  | Init
  | SetInteractive (on : Z)
  | PowerHint (hint : power_hint_t) (data : Z).

Definition run (c : call) (g : globals) (w : world) : option (globals * world) :=
  '(_, g', w') ←
    match c with
    | Init => p3_power_init g w
    | SetInteractive on => p3_power_set_interactive on g w
    | PowerHint hint data => p3_power_hint hint data g w
    end;
  Some (g', w').

(** Calls in sequence, each in the world its predecessor left. *)
Fixpoint run_all (cs : list call) (g : globals) (w : world) : option (globals * world) :=
  match cs with
  | [] => Some (g, w)
  | c :: cs' => '(g', w') ← run c g w; run_all cs' g' w'
  end.

(** * The vocabulary of the properties *)

(** The first [size] bytes of a value, padded with NUL up to [size]. *)
Definition zero_padded (d : list ascii) (size : nat) : list ascii :=
  take size d ++ replicate (size - length d) NUL.

(** The store condition of [store_max_freq], in the words of the
    comparison it makes: the read did not return -1, the first
    [strlen (screen_off_max_freq)] characters read are not those of the
    screen-off frequency, and low-power mode is off. *)
Definition stores (len : Z) (buf : list ascii) (g : globals) : Prop :=
  len ≠ -1 ∧ take (length (chars "456000")) buf ≠ chars "456000" ∧
  low_power_mode g = false.

Global Instance stores_dec len buf g : Decision (stores len buf g).
Proof. unfold stores. apply _. Defined.

(** The reading [store_max_freq] takes in a world: the buffer after a
    read that did not return -1. *)
Definition live_reading (w : world) : option (list ascii) :=
  match sysfs_read CPU0_SCALINGMAXFREQ_PATH (replicate MAX_BUF_SZ NUL) MAX_BUF_SZ w with
  | Some (len, buf, _) => if decide (len ≠ -1) then Some buf else None
  | None => None
  end.

(** What one call of [sysfs_write] does to the world. *)
Definition write_effect (path : string) (s : list ascii) (ret : Z) (w w' : world) : Prop :=
  trace w' = trace w ++ [SysfsWrite path s ret] ∧
  (script w = [] → script w' = []) ∧
  ((ret = 0 ∧ ∃ n, strlen s = Some n ∧ is_Some (files w !! path) ∧
                 files w' = <[path := take n s]> (files w) ∧ logcat w' = logcat w) ∨
   (ret = -1 ∧ files w' = files w ∧ ∃ l, logcat w' = logcat w ++ [l])) ∧
  (script w = [] → is_Some (files w !! path) → ret = 0).

(** An array of [MAX_BUF_SZ] characters that holds a terminated string. *)
Definition c_string (s : list ascii) : Prop :=
  length s = MAX_BUF_SZ ∧ is_Some (strlen s).

Definition well_formed (g : globals) : Prop :=
  c_string (scaling_max_freq g) ∧ c_string (normal_max_freq g).

(** The value of the CPU0 attribute, when there is one, leaves room for
    the terminator in a buffer of [MAX_BUF_SZ] bytes. *)
Definition live_fits (w : world) : Prop :=
  match files w !! CPU0_SCALINGMAXFREQ_PATH with
  | Some d => (length d < MAX_BUF_SZ)%nat
  | None => True
  end.

(** No failure is scripted and both CPU attributes exist. *)
Definition serving (w : world) : Prop :=
  script w = [] ∧
  is_Some (files w !! CPU0_SCALINGMAXFREQ_PATH) ∧
  is_Some (files w !! CPU1_SCALINGMAXFREQ_PATH).

(** A world in which every attribute exists and nothing fails, CPU0
    reading [1000000]. *)
Definition test_world : world :=
  World (<[ CPU0_SCALINGMAXFREQ_PATH := chars "1000000" ]>
         (<[ CPU1_SCALINGMAXFREQ_PATH := chars "1000000" ]>
         (<[ TOUCH_SUSPEND_PATH := chars "0" ]>
         (<[ MPU3050_SUSPEND_PATH := chars "0" ]> ∅)))) [] [] [].

(** The four attributes exist. *)
Definition all_attributes (w : world) : Prop :=
  is_Some (files w !! CPU0_SCALINGMAXFREQ_PATH) ∧
  is_Some (files w !! CPU1_SCALINGMAXFREQ_PATH) ∧
  is_Some (files w !! TOUCH_SUSPEND_PATH) ∧
  is_Some (files w !! MPU3050_SUSPEND_PATH).

(** The string in an array: the characters before the terminator. *)
Definition c_str (s : list ascii) : list ascii :=
  match strlen s with
  | Some n => take n s
  | None => s
  end.

(** The [sysfs_write] calls of a trace, served or not: path and string. *)
Definition attempts (tr : list event) : list (string * list ascii) :=
  omap (λ e, match e with
             | SysfsWrite path s _ => Some (path, c_str s)
             | SysfsRead _ _ _ => None
             end) tr.

(** The writes each entry point goes through, from its arguments and the
    state at entry alone. *)
Definition planned_writes (c : call) (g : globals) : list (string * list ascii) :=
  match c with
  | Init => []
  | SetInteractive on =>
      if decide (on = 0) then
        [(CPU0_SCALINGMAXFREQ_PATH, chars "456000");
         (CPU1_SCALINGMAXFREQ_PATH, chars "456000");
         (TOUCH_SUSPEND_PATH, chars "1");
         (MPU3050_SUSPEND_PATH, chars "1")]
      else if low_power_mode g then
        [(CPU0_SCALINGMAXFREQ_PATH, chars LOW_POWER_MAX_FREQ);
         (CPU1_SCALINGMAXFREQ_PATH, chars LOW_POWER_MAX_FREQ)]
      else
        [(CPU0_SCALINGMAXFREQ_PATH, c_str (scaling_max_freq g));
         (CPU1_SCALINGMAXFREQ_PATH, c_str (scaling_max_freq g));
         (TOUCH_SUSPEND_PATH, chars "0");
         (MPU3050_SUSPEND_PATH, chars "0")]
  | PowerHint POWER_HINT_LOW_POWER data =>
      if decide (data ≠ 0) then
        [(CPU0_SCALINGMAXFREQ_PATH, chars LOW_POWER_MAX_FREQ);
         (CPU1_SCALINGMAXFREQ_PATH, chars LOW_POWER_MAX_FREQ)]
      else
        [(CPU0_SCALINGMAXFREQ_PATH, c_str (normal_max_freq g));
         (CPU1_SCALINGMAXFREQ_PATH, c_str (normal_max_freq g))]
  | PowerHint _ _ => []
  end.

(** A world in which the touch attribute is missing, the first read is
    interrupted once and the write to CPU0 fails. *)
Definition failing_world : world :=
  World (<[ CPU0_SCALINGMAXFREQ_PATH := chars "1000000" ]>
         (<[ CPU1_SCALINGMAXFREQ_PATH := chars "1000000" ]>
         (<[ MPU3050_SUSPEND_PATH := chars "0" ]> ∅)))
        [None; Some EINTR; None; None; Some EIO] [] [].

(** Both arrays have their declared size. *)
Definition sized (g : globals) : Prop :=
  length (scaling_max_freq g) = MAX_BUF_SZ ∧ length (normal_max_freq g) = MAX_BUF_SZ.

(** A call together with the world it runs in.  Between two calls the
    kernel side is free to change: the world of each step is arbitrary. *)
Record step := Step { step_call : call; step_world : world }.

Fixpoint run_steps (ss : list step) (g : globals) : option globals :=
  match ss with
  | [] => Some g
  | s :: ss' => '(g', _) ← run (step_call s) g (step_world s); run_steps ss' g'
  end.

(** Whether the screen is on after some calls: the argument of the last
    [SetInteractive], and on before any. *)
Definition screen_on (ss : list step) : bool :=
  fold_left (λ b s, match step_call s with
                    | SetInteractive on => bool_decide (on ≠ 0)
                    | _ => b
                    end) ss true.

(** [v] was read from CPU0 by the initialisation or a screen-off call of
    the run [ss] that was entered with low-power mode off. *)
Definition captured_normal (ss : list step) (v : list ascii) : Prop :=
  ∃ ss1 s ss2 g1,
    ss = ss1 ++ s :: ss2 ∧ run_steps ss1 initial_globals = Some g1 ∧
    low_power_mode g1 = false ∧
    (step_call s = Init ∨ step_call s = SetInteractive 0) ∧
    live_reading (step_world s) = Some v.

(** The same, and the screen was on when that call was made. *)
Definition captured_interactive (ss : list step) (v : list ascii) : Prop :=
  ∃ ss1 s ss2 g1,
    ss = ss1 ++ s :: ss2 ∧ run_steps ss1 initial_globals = Some g1 ∧
    screen_on ss1 = true ∧ low_power_mode g1 = false ∧
    (step_call s = Init ∨ step_call s = SetInteractive 0) ∧
    live_reading (step_world s) = Some v.

(** Two screen-off calls; between them CPU0 came to read [150000]. *)
Definition world_150000 : world :=
  World (<[ CPU0_SCALINGMAXFREQ_PATH := chars LOW_POWER_MIN_FREQ ]>
         (<[ CPU1_SCALINGMAXFREQ_PATH := chars LOW_POWER_MIN_FREQ ]> ∅)) [] [] [].

Definition repeated_screen_off : list step :=
  [Step (SetInteractive 0) test_world; Step (SetInteractive 0) world_150000].

(** A world whose CPU0 attribute reads ten characters. *)
Definition long_world : world :=
  World (<[ CPU0_SCALINGMAXFREQ_PATH := chars "1000000000" ]>
         (<[ CPU1_SCALINGMAXFREQ_PATH := chars "1000000000" ]> ∅)) [] [] [].

(** A world with the CPU0 attribute alone, reading [d]. *)
Definition world_reading (d : string) : world :=
  World (<[ CPU0_SCALINGMAXFREQ_PATH := chars d ]> ∅) [] [] [].

(** The line feed the kernel prints after a frequency. *)
Definition newline : string := String "010"%char EmptyString.

(** Whether low-power mode was last asked for: the data of the last
    low-power hint of a run, and off before any. *)
Definition low_power_requested (ss : list step) : bool :=
  fold_left (λ b s, match step_call s with
                    | PowerHint POWER_HINT_LOW_POWER data => bool_decide (data ≠ 0)
                    | _ => b
                    end) ss false.

(** [v] was read from CPU0 by a low-power hint with data of the run [ss]
    that was entered with low-power mode off. *)
Definition captured_at_enable (ss : list step) (v : list ascii) : Prop :=
  ∃ ss1 s ss2 g1 data,
    ss = ss1 ++ s :: ss2 ∧ run_steps ss1 initial_globals = Some g1 ∧
    low_power_mode g1 = false ∧
    step_call s = PowerHint POWER_HINT_LOW_POWER data ∧ data ≠ 0 ∧
    live_reading (step_world s) = Some v.

(** A world whose read of CPU0 is interrupted twice before it is served. *)
Definition interrupted_world : world :=
  World (<[ CPU0_SCALINGMAXFREQ_PATH := chars "1000000" ]> ∅)
        [None; Some EINTR; Some EINTR; None; Some EIO] [] [].

(** A world in which every attribute exists and nothing fails, CPU0
    reading [760000]. *)
Definition world_760000 : world :=
  World (<[ CPU0_SCALINGMAXFREQ_PATH := chars "760000" ]>
         (<[ CPU1_SCALINGMAXFREQ_PATH := chars "760000" ]>
         (<[ TOUCH_SUSPEND_PATH := chars "0" ]>
         (<[ MPU3050_SUSPEND_PATH := chars "0" ]> ∅)))) [] [] [].

(** A world in which the open of the touch attribute is served and the
    one [write] that follows is interrupted; a served entry comes next. *)
Definition interrupted_write_world : world :=
  World (<[ TOUCH_SUSPEND_PATH := chars "0" ]> ∅) [None; Some EINTR; None] [] [].

(** * Properties *)

(** ** The C library *)

Lemma uchar_inj (c1 c2 : ascii) : uchar c1 = uchar c2 → c1 = c2.
Proof.
  unfold uchar. intros H. apply N2Z.inj in H.
  rewrite <- (ascii_N_embedding c1), <- (ascii_N_embedding c2). by rewrite H.
Qed.

Lemma strlen_Some (s : list ascii) (n : nat) :
  strlen s = Some n →
  (n < length s)%nat ∧ s !! n = Some NUL ∧ NUL ∉ take n s.
Proof.
  revert n. induction s as [|c s IH]; intros n; simpl; [done|].
  destruct (decide (c = NUL)) as [->|Hc].
  - intros [= <-]. simpl. split; [lia|]. split; [done|]. apply not_elem_of_nil.
  - destruct (strlen s) as [m|] eqn:Hs; simpl; [|done].
    intros [= <-]. destruct (IH m eq_refl) as (Hlt & Hm & Hnot).
    simpl. split; [lia|]. split; [done|].
    rewrite not_elem_of_cons. by split; [congruence|].
Qed.

Lemma strlen_None (s : list ascii) : strlen s = None ↔ NUL ∉ s.
Proof.
  induction s as [|c s IH]; simpl.
  - split; [intros _; apply not_elem_of_nil|done].
  - rewrite not_elem_of_cons. destruct (decide (c = NUL)) as [->|Hc].
    + split; [done|]. by intros [? _].
    + destruct (strlen s); simpl.
      * split; [done|]. intros [_ H]. by apply IH in H.
      * split; [|done]. intros _. split; [congruence|]. by apply IH.
Qed.

(** Against a string that has no NUL among its first [n] characters,
    [strncmp] is defined on arrays of [n] characters or more and returns 0
    exactly when the first [n] characters agree. *)
Lemma strncmp_prefix (n : nat) (s1 s2 : list ascii) :
  (n ≤ length s1)%nat → (n ≤ length s2)%nat → NUL ∉ take n s2 →
  ∃ c, strncmp s1 s2 n = Some c ∧ (c = 0 ↔ take n s1 = take n s2).
Proof.
  revert s1 s2. induction n as [|n IH]; intros s1 s2 H1 H2 Hnul; simpl.
  - exists 0. split; [done|]. by split.
  - destruct s1 as [|c1 r1]; [simpl in H1; lia|].
    destruct s2 as [|c2 r2]; [simpl in H2; lia|].
    simpl in *. apply not_elem_of_cons in Hnul as [Hc2 Hnul].
    destruct (decide (c1 = c2)) as [->|Hne].
    + destruct (decide (c2 = NUL)); [congruence|].
      destruct (IH r1 r2) as (c & Hc & Hiff); [lia|lia|done|].
      exists c. split; [done|]. rewrite Hiff. split; [by intros ->|by intros [= ->]].
    + exists (uchar c1 - uchar c2). split; [done|]. split.
      * intros H. exfalso. apply Hne, uchar_inj. lia.
      * intros [= ? _]. done.
Qed.

Lemma memcpy_whole (dst src : list ascii) (n : nat) :
  length dst = n → length src = n → memcpy dst src n = Some src.
Proof.
  intros Hd Hs. unfold memcpy. rewrite decide_True by lia.
  rewrite take_ge by lia. rewrite drop_ge by lia. by rewrite app_nil_r.
Qed.

(** ** The kernel side *)

Lemma inject_spec (w : world) :
  files (inject w).2 = files w ∧ trace (inject w).2 = trace w ∧
  logcat (inject w).2 = logcat w ∧
  (script w = [] → (inject w).1 = None ∧ script (inject w).2 = []).
Proof.
  unfold inject. destruct (script w) eqn:E; simpl; by rewrite ?E.
Qed.

Lemma sys_open_spec (path : string) (w : world) :
  files (sys_open path w).2 = files w ∧ trace (sys_open path w).2 = trace w ∧
  logcat (sys_open path w).2 = logcat w ∧
  (script w = [] → script (sys_open path w).2 = [] ∧
     ((sys_open path w).1 = inr path ∨ (files w !! path = None ∧ (sys_open path w).1 = inl ENOENT))) ∧
  (∀ fd, (sys_open path w).1 = inr fd → fd = path ∧ is_Some (files w !! path)).
Proof.
  unfold sys_open. destruct (inject_spec w) as (Hf & Ht & Hl & Hs).
  destruct (inject w) as [f w1]. simpl in *.
  destruct f as [e|]; simpl.
  - split; [done|]. split; [done|]. split; [done|]. split; [|done].
    intros Hsc. by destruct (Hs Hsc).
  - rewrite Hf. destruct (files w !! path) as [d|] eqn:E; simpl;
      (split; [done|]); (split; [done|]); (split; [done|]); split.
    + intros Hsc. destruct (Hs Hsc) as [_ Hsc']. split; [done|]. by left.
    + intros fd [= <-]. split; [done|]. by exists d.
    + intros Hsc. destruct (Hs Hsc) as [_ Hsc']. split; [done|]. by right.
    + done.
Qed.

Lemma read_retry_chunk (d : list ascii) (size : nat) (sc sc' : list (option errno)) chunk :
  read_retry d size sc = (inr chunk, sc') → chunk = take size d.
Proof.
  revert sc'. induction sc as [|[e|] sc IH]; simpl; intros sc'.
  - by intros [= <- _].
  - destruct (decide (e = EINTR)); [apply IH|done].
  - by intros [= <- _].
Qed.

(** ** SysfsAccessor *)

Lemma length_zero_padded (d : list ascii) (size : nat) :
  length (zero_padded d size) = size.
Proof. unfold zero_padded. rewrite length_app, length_take, length_replicate. lia. Qed.

(** On a buffer with room for [size] bytes [sysfs_read] is defined.  It
    changes neither the attributes nor the log, records its call, and
    either returns -1 and leaves the buffer alone, or returns the number
    of bytes read and leaves them, zero-padded up to [size], in front of
    the rest of the buffer. *)
Lemma sysfs_read_spec (path : string) (buf : list ascii) (size : nat) (w : world) :
  (size ≤ length buf)%nat →
  ∃ len buf' w',
    sysfs_read path buf size w = Some (len, buf', w') ∧
    files w' = files w ∧ logcat w' = logcat w ∧
    trace w' = trace w ++ [SysfsRead path size len] ∧
    (script w = [] → script w' = []) ∧
    ((len = -1 ∧ buf' = buf) ∨
     (∃ d, files w !! path = Some d ∧ len = Z.of_nat (length (take size d)) ∧
           buf' = zero_padded d size ++ drop size buf)) ∧
    (script w = [] → is_Some (files w !! path) → len ≠ -1).
Proof.
  intros Hsize. unfold sysfs_read.
  destruct (sys_open_spec path w) as (Hf & Ht & Hl & Hs & Hfd).
  destruct (sys_open path w) as [[e|fd] w1]; simpl in *.
  - eexists _, _, _. split; [done|]. simpl.
    rewrite Hf, Hl, Ht. do 3 (split; [done|]). split; [intros H; by apply Hs|].
    split; [by left|]. intros Hsc [d Hd]. destruct (Hs Hsc) as [_ [?|[Hn _]]]; congruence.
  - destruct (Hfd fd eq_refl) as [-> [d Hd]]. rewrite Hf, Hd. simpl.
    destruct (read_retry d size (script w1)) as [r sc] eqn:Hr.
    destruct r as [e|chunk]; simpl.
    + eexists _, _, _. split; [done|]. simpl. rewrite Hf, Hl, Ht.
      do 3 (split; [done|]). split.
      * intros Hsc. destruct (Hs Hsc) as [Hsc1 _]. rewrite Hsc1 in Hr. by simplify_eq/=.
      * split; [by left|]. intros Hsc _. destruct (Hs Hsc) as [Hsc1 _].
        rewrite Hsc1 in Hr. by simplify_eq/=.
    + pose proof (read_retry_chunk _ _ _ _ _ Hr) as ->.
      assert (length (take size d) ≤ size)%nat as Hle by (rewrite length_take; lia).
      rewrite decide_True by lia. simpl.
      assert (∃ buf',
        (if decide (0 ≤ Z.of_nat (length (take size d)) ∧
                    Z.of_nat (length (take size d)) < Z.of_nat size)
         then memset (take size d ++ drop (length (take size d)) buf)
                (Z.to_nat (Z.of_nat (length (take size d)))) NUL
                (size - Z.to_nat (Z.of_nat (length (take size d))))
         else Some (take size d ++ drop (length (take size d)) buf)) = Some buf' ∧
        buf' = zero_padded d size ++ drop size buf) as (buf' & -> & Hbuf').
      { unfold zero_padded. rewrite Nat2Z.id.
        assert (length (take size d) = size `min` length d)%nat as Hk
          by apply length_take.
        case_decide as Hlt.
        - unfold memset.
          rewrite decide_True by (rewrite length_app, length_drop; lia).
          eexists. split; [done|].
          rewrite take_app_length, drop_app_ge by lia.
          rewrite drop_drop, <- app_assoc.
          f_equal. f_equal; f_equal; lia.
        - eexists. split; [done|].
          replace (size - length d)%nat with 0%nat by lia. simpl.
          rewrite app_nil_r. f_equal. f_equal. lia. }
      simpl. eexists _, _, _. split; [done|]. simpl. rewrite Hf, Hl, Ht.
      do 3 (split; [done|]). split.
      * intros Hsc. destruct (Hs Hsc) as [Hsc1 _]. rewrite Hsc1 in Hr. by simplify_eq/=.
      * split; [|lia]. right. by exists d.
Qed.

(** [sysfs_write] is defined on a terminated string, and on any array
    when the open fails.  It records its call; when it returns 0 the
    attribute holds the string, otherwise it returns -1, the attributes
    are as before and one line is logged. *)
Lemma sysfs_write_spec (path : string) (s : list ascii) (w : world) :
  is_Some (strlen s) →
  ∃ ret w',
    sysfs_write path s w = Some (ret, w') ∧
    trace w' = trace w ++ [SysfsWrite path s ret] ∧
    (script w = [] → script w' = []) ∧
    ((ret = 0 ∧ ∃ n, strlen s = Some n ∧ is_Some (files w !! path) ∧
                   files w' = <[path := take n s]> (files w) ∧ logcat w' = logcat w) ∨
     (ret = -1 ∧ files w' = files w ∧ ∃ l, logcat w' = logcat w ++ [l])) ∧
    (script w = [] → is_Some (files w !! path) → ret = 0).
Proof.
  intros [n Hn]. unfold sysfs_write.
  destruct (sys_open_spec path w) as (Hf & Ht & Hl & Hs & Hfd).
  destruct (sys_open path w) as [[e|fd] w1]; simpl in *.
  - eexists _, _. split; [done|]. simpl. rewrite Hf, Hl, Ht.
    split; [done|]. split; [intros H; by apply Hs|]. split.
    + right. split; [done|]. split; [done|]. by eexists.
    + intros Hsc [d Hd]. destruct (Hs Hsc) as [_ [?|[Hnone _]]]; congruence.
  - destruct (Hfd fd eq_refl) as [-> Hex]. rewrite Hn. simpl.
    unfold sys_write. destruct (inject_spec w1) as (Hf1 & Ht1 & Hl1 & Hs1).
    destruct (inject w1) as [f w2]. simpl in *. destruct f as [e|]; simpl.
    + eexists _, _. split; [done|]. simpl. rewrite Hf1, Hl1, Ht1, Hf, Hl, Ht.
      split; [done|]. split.
      * intros Hsc. apply Hs1. by apply Hs.
      * split; [right; split; [done|]; split; [done|]; by eexists|].
        intros Hsc _. destruct (Hs Hsc) as [Hsc1 _]. by destruct (Hs1 Hsc1).
    + eexists _, _. split; [done|]. simpl. rewrite Hf1, Hl1, Ht1, Hf, Hl, Ht.
      split; [done|]. split.
      * intros Hsc. apply Hs1. by apply Hs.
      * split; [|done]. left. split; [done|]. by exists n.
Qed.

(** When the open fails no string is read: the call is defined on any array. *)
Lemma sysfs_write_total_on_missing (path : string) (s : list ascii) (w : world) :
  files w !! path = None →
  ∃ w', sysfs_write path s w = Some (-1, w').
Proof.
  intros Hnone. unfold sysfs_write.
  destruct (sys_open_spec path w) as (_ & _ & _ & _ & Hfd).
  destruct (sys_open path w) as [[e|fd] w1]; simpl in *; [by eexists|].
  destruct (Hfd fd eq_refl) as [_ [d Hd]]. congruence.
Qed.

(** The value returned and the world after [sysfs_read] do not depend on
    what the buffer held, and neither does the buffer after a read that
    succeeded into a buffer of exactly [size] bytes. *)
Lemma sysfs_read_world (path : string) (b1 b2 : list ascii) (size : nat) (w : world)
    l1 r1 w1 l2 r2 w2 :
  sysfs_read path b1 size w = Some (l1, r1, w1) →
  sysfs_read path b2 size w = Some (l2, r2, w2) →
  l1 = l2 ∧ w1 = w2.
Proof.
  unfold sysfs_read. destruct (sys_open path w) as [[e|fd] w0]; simpl.
  { by intros [= <- _ <-] [= <- _ <-]. }
  destruct (read_retry _ _ _) as [[e|chunk] sc]; simpl.
  { by intros [= <- _ <-] [= <- _ <-]. }
  destruct (decide (length chunk ≤ length b1)%nat); simpl; [|done].
  destruct (decide (length chunk ≤ length b2)%nat); simpl; [|done].
  destruct (decide (0 ≤ Z.of_nat (length chunk) < Z.of_nat size)); simpl.
  - destruct (memset (chunk ++ drop _ b1) _ _ _); simpl; [|done].
    destruct (memset (chunk ++ drop _ b2) _ _ _); simpl; [|done].
    by intros [= <- _ <-] [= <- _ <-].
  - by intros [= <- _ <-] [= <- _ <-].
Qed.

Lemma sysfs_read_buffer_irrelevant (path : string) (b1 b2 : list ascii) (size : nat)
    (w : world) :
  length b1 = size → length b2 = size →
  ∃ len r1 r2 w',
    sysfs_read path b1 size w = Some (len, r1, w') ∧
    sysfs_read path b2 size w = Some (len, r2, w') ∧
    (len ≠ -1 → r1 = r2).
Proof.
  intros H1 H2.
  destruct (sysfs_read_spec path b1 size w) as (l1 & r1 & w1 & E1 & _ & _ & _ & _ & C1 & _); [lia|].
  destruct (sysfs_read_spec path b2 size w) as (l2 & r2 & w2 & E2 & _ & _ & _ & _ & C2 & _); [lia|].
  destruct (sysfs_read_world _ _ _ _ _ _ _ _ _ _ _ E1 E2) as [<- <-].
  exists l1, r1, r2, w1. do 2 (split; [done|]). intros Hl.
  destruct C1 as [[? _]|(d1 & Hd1 & _ & ->)]; [done|].
  destruct C2 as [[? _]|(d2 & Hd2 & _ & ->)]; [done|].
  rewrite !drop_ge by lia. congruence.
Qed.

(** ** FrequencyState *)

Lemma strlen_screen_off : strlen screen_off_max_freq = Some 6%nat.
Proof. reflexivity. Qed.

Arguments strlen : simpl never.
Arguments strncmp : simpl never.

Lemma store_max_freq_with_spec (junk : list ascii) (t : target) (g : globals) (w : world) :
  length junk = MAX_BUF_SZ →
  low_power_mode g = true ∨ length (deref t g) = MAX_BUF_SZ →
  ∃ len buf w',
    sysfs_read CPU0_SCALINGMAXFREQ_PATH junk MAX_BUF_SZ w = Some (len, buf, w') ∧
    store_max_freq_with junk t g w
    = Some (tt, if decide (stores len buf g) then assign t buf g else g, w').
Proof.
  intros Hjunk Hwf.
  destruct (sysfs_read_spec CPU0_SCALINGMAXFREQ_PATH junk MAX_BUF_SZ w)
    as (len & buf & w' & E & _ & _ & _ & _ & C & _); [lia|].
  exists len, buf, w'. split; [done|].
  unfold store_max_freq_with, bind, io, libc, get_globals, put_globals, ret.
  rewrite E. simpl.
  assert (len ≠ -1 → ∃ c,
    strncmp buf screen_off_max_freq 6 = Some c ∧
    (c = 0 ↔ take 6 buf = chars "456000") ∧ length buf = MAX_BUF_SZ)
    as Hcmp.
  { intros Hlen. destruct C as [[? _]|(d & Hd & _ & ->)]; [done|].
    rewrite drop_ge by lia. rewrite app_nil_r.
    destruct (strncmp_prefix 6 (zero_padded d MAX_BUF_SZ) screen_off_max_freq)
      as (c & Hc & Hiff).
    - rewrite length_zero_padded. unfold MAX_BUF_SZ. lia.
    - simpl. lia.
    - compute_done.
    - exists c. by rewrite length_zero_padded. }
  destruct (decide (stores len buf g)) as [(Hlen & Hp & Hlp)|Hst].
  - destruct (Hcmp Hlen) as (c & Hc & Hiff & Hbuf).
    rewrite decide_True by done. rewrite ?strlen_screen_off. simpl. rewrite Hc.
    rewrite decide_True by (intros ?; by apply Hp, Hiff). simpl.
    rewrite Hlp. simpl. destruct Hwf as [?|Hwf]; [congruence|].
    by rewrite memcpy_whole.
  - destruct (decide (len ≠ -1)) as [Hlen|Hlen]; simpl; [|done].
    destruct (Hcmp Hlen) as (c & Hc & Hiff & Hbuf).
    rewrite ?strlen_screen_off. simpl. rewrite Hc.
    destruct (decide (c ≠ 0)) as [Hne|Heq]; simpl; [|done].
    destruct (low_power_mode g) eqn:Hlp; simpl; [done|].
    destruct Hst. split; [done|]. split; [|done].
    intros Hp. by apply Hne, Hiff.
Qed.

(** X8.  The capture does not depend on what its local buffer held before
    the read: indeterminate stack bytes never reach the state. *)
Lemma store_max_freq_junk (junk : list ascii) (t : target) (g : globals) (w : world) :
  length junk = MAX_BUF_SZ →
  low_power_mode g = true ∨ length (deref t g) = MAX_BUF_SZ →
  store_max_freq_with junk t g w = store_max_freq t g w.
Proof.
  intros Hjunk Hwf. unfold store_max_freq.
  destruct (store_max_freq_with_spec junk t g w Hjunk Hwf) as (l1 & b1 & w1 & E1 & ->).
  destruct (store_max_freq_with_spec (replicate MAX_BUF_SZ NUL) t g w) as (l2 & b2 & w2 & E2 & ->);
    [by rewrite length_replicate|done|].
  destruct (sysfs_read_buffer_irrelevant CPU0_SCALINGMAXFREQ_PATH junk
              (replicate MAX_BUF_SZ NUL) MAX_BUF_SZ w)
    as (len & r1 & r2 & w' & F1 & F2 & Hr); [done|by rewrite length_replicate|].
  rewrite E1 in F1. rewrite E2 in F2. simplify_eq.
  destruct (decide (len = -1)) as [->|Hlen].
  - rewrite !decide_False; [done| |]; by intros [? _].
  - by rewrite (Hr Hlen).
Qed.

Lemma store_max_freq_spec (t : target) (g : globals) (w : world) :
  low_power_mode g = true ∨ length (deref t g) = MAX_BUF_SZ →
  ∃ len buf w',
    sysfs_read CPU0_SCALINGMAXFREQ_PATH (replicate MAX_BUF_SZ NUL) MAX_BUF_SZ w
    = Some (len, buf, w') ∧
    store_max_freq t g w
    = Some (tt, if decide (stores len buf g) then assign t buf g else g, w') ∧
    files w' = files w ∧ logcat w' = logcat w ∧
    trace w' = trace w ++ [SysfsRead CPU0_SCALINGMAXFREQ_PATH MAX_BUF_SZ len] ∧
    (script w = [] → script w' = []) ∧
    (len = -1 ∨
     ∃ d, files w !! CPU0_SCALINGMAXFREQ_PATH = Some d ∧
          len = Z.of_nat (length (take MAX_BUF_SZ d)) ∧ buf = zero_padded d MAX_BUF_SZ) ∧
    (script w = [] → is_Some (files w !! CPU0_SCALINGMAXFREQ_PATH) → len ≠ -1).
Proof.
  intros Hwf.
  destruct (store_max_freq_with_spec (replicate MAX_BUF_SZ NUL) t g w)
    as (len & buf & w' & E & Hst); [by rewrite length_replicate|done|].
  destruct (sysfs_read_spec CPU0_SCALINGMAXFREQ_PATH (replicate MAX_BUF_SZ NUL) MAX_BUF_SZ w)
    as (len' & buf' & w'' & E' & Hf & Hl & Ht & Hs & C & Hok);
    [by rewrite length_replicate|].
  rewrite E in E'. simplify_eq.
  exists len', buf', w''. do 6 (split; [done|]). split; [|done].
  destruct C as [[? _]|(d & Hd & Hlen & ->)]; [by left|]. right. exists d.
  do 2 (split; [done|]).
  rewrite drop_ge by (rewrite length_replicate; lia). by rewrite app_nil_r.
Qed.

(** ** PowerPolicy *)

Lemma do_sysfs_write_spec (path : string) (s : list ascii) (g : globals) (w : world) :
  is_Some (strlen s) →
  ∃ ret w', do_sysfs_write path s g w = Some (tt, g, w') ∧ write_effect path s ret w w'.
Proof.
  intros Hs. destruct (sysfs_write_spec path s w Hs) as (ret & w' & E & H).
  exists ret, w'. split; [|done]. unfold do_sysfs_write, io. by rewrite E.
Qed.

(** Domain of the attributes: a write creates none and removes none. *)
Lemma write_effect_files (path : string) (s : list ascii) (ret : Z) (w w' : world) (p : string) :
  write_effect path s ret w w' → is_Some (files w' !! p) ↔ is_Some (files w !! p).
Proof.
  intros (_ & _ & [(_ & n & _ & Hex & -> & _)|(_ & -> & _)] & _); [|done].
  destruct (decide (path = p)) as [->|Hne].
  - rewrite lookup_insert_eq. split; [done|]. by eexists.
  - by rewrite lookup_insert_ne.
Qed.

Ltac write_step H :=
  match goal with
  | |- context [do_sysfs_write ?p ?s ?g ?w] =>
      let r := fresh "r" in
      let w' := fresh "w" in
      let E := fresh "E" in
      destruct (do_sysfs_write_spec p s g w) as (r & w' & E & H);
      [ first [ assumption | by eexists ] | rewrite E; simpl ]
  end.

(** Screen off: the capture, then the four writes. *)
Lemma set_interactive_off_spec (g : globals) (w : world) :
  low_power_mode g = true ∨ length (scaling_max_freq g) = MAX_BUF_SZ →
  ∃ g' w0 r1 w1 r2 w2 r3 w3 r4 w4,
    store_max_freq Scaling_max_freq g w = Some (tt, g', w0) ∧
    p3_power_set_interactive 0 g w = Some (tt, g', w4) ∧
    write_effect CPU0_SCALINGMAXFREQ_PATH screen_off_max_freq r1 w0 w1 ∧
    write_effect CPU1_SCALINGMAXFREQ_PATH screen_off_max_freq r2 w1 w2 ∧
    write_effect TOUCH_SUSPEND_PATH (literal "1") r3 w2 w3 ∧
    write_effect MPU3050_SUSPEND_PATH (literal "1") r4 w3 w4.
Proof.
  intros Hwf.
  destruct (store_max_freq_spec Scaling_max_freq g w Hwf) as (len & buf & w0 & _ & E & _).
  unfold p3_power_set_interactive, bind, get_globals. simpl. rewrite E. simpl.
  write_step H1. write_step H2. write_step H3. write_step H4.
  by eexists _, _, _, _, _, _, _, _, _, _.
Qed.

(** Screen on in low-power mode: the capture, which the flag turns down,
    then two writes; the suspend attributes are left alone. *)
Lemma set_interactive_on_low_power_spec (on : Z) (g : globals) (w : world) :
  on ≠ 0 → low_power_mode g = true →
  ∃ w0 r1 w1 r2 w2,
    store_max_freq Scaling_max_freq g w = Some (tt, g, w0) ∧
    p3_power_set_interactive on g w = Some (tt, g, w2) ∧
    write_effect CPU0_SCALINGMAXFREQ_PATH (literal LOW_POWER_MAX_FREQ) r1 w0 w1 ∧
    write_effect CPU1_SCALINGMAXFREQ_PATH (literal LOW_POWER_MAX_FREQ) r2 w1 w2.
Proof.
  intros Hon Hlp.
  destruct (store_max_freq_spec Scaling_max_freq g w (or_introl Hlp))
    as (len & buf & w0 & _ & E & _).
  rewrite decide_False in E by (intros (_ & _ & ?); congruence).
  unfold p3_power_set_interactive, bind, get_globals. simpl.
  rewrite decide_False by done. rewrite Hlp, E. simpl.
  write_step H1. write_step H2.
  by eexists _, _, _, _, _.
Qed.

(** Screen on outside low-power mode: no capture; the remembered
    frequency goes to both CPUs and both peripherals are resumed. *)
Lemma set_interactive_on_normal_spec (on : Z) (g : globals) (w : world) :
  on ≠ 0 → low_power_mode g = false → is_Some (strlen (scaling_max_freq g)) →
  ∃ r1 w1 r2 w2 r3 w3 r4 w4,
    p3_power_set_interactive on g w = Some (tt, g, w4) ∧
    write_effect CPU0_SCALINGMAXFREQ_PATH (scaling_max_freq g) r1 w w1 ∧
    write_effect CPU1_SCALINGMAXFREQ_PATH (scaling_max_freq g) r2 w1 w2 ∧
    write_effect TOUCH_SUSPEND_PATH (literal "0") r3 w2 w3 ∧
    write_effect MPU3050_SUSPEND_PATH (literal "0") r4 w3 w4.
Proof.
  intros Hon Hlp Hstr.
  unfold p3_power_set_interactive, bind, get_globals. simpl.
  rewrite decide_False by done. rewrite Hlp.
  write_step H1. write_step H2. write_step H3. write_step H4.
  by eexists _, _, _, _, _, _, _, _.
Qed.

(** The low-power hint with data: the capture into [normal_max_freq],
    the flag, two writes. *)
Lemma power_hint_enable_spec (data : Z) (g : globals) (w : world) :
  data ≠ 0 →
  low_power_mode g = true ∨ length (normal_max_freq g) = MAX_BUF_SZ →
  ∃ g' w0 r1 w1 r2 w2,
    store_max_freq Normal_max_freq g w = Some (tt, g', w0) ∧
    p3_power_hint POWER_HINT_LOW_POWER data g w
    = Some (tt, set_low_power_mode true g', w2) ∧
    write_effect CPU0_SCALINGMAXFREQ_PATH (literal LOW_POWER_MAX_FREQ) r1 w0 w1 ∧
    write_effect CPU1_SCALINGMAXFREQ_PATH (literal LOW_POWER_MAX_FREQ) r2 w1 w2.
Proof.
  intros Hdata Hwf.
  destruct (store_max_freq_spec Normal_max_freq g w Hwf) as (len & buf & w0 & _ & E & _).
  unfold p3_power_hint, bind, get_globals, put_globals. simpl.
  rewrite decide_True by done. rewrite E. simpl.
  write_step H1. write_step H2.
  by eexists _, _, _, _, _, _.
Qed.

(** The low-power hint without data: the flag, then [normal_max_freq] to
    both CPUs. *)
Lemma power_hint_disable_spec (g : globals) (w : world) :
  is_Some (strlen (normal_max_freq g)) →
  ∃ r1 w1 r2 w2,
    p3_power_hint POWER_HINT_LOW_POWER 0 g w
    = Some (tt, set_low_power_mode false g, w2) ∧
    write_effect CPU0_SCALINGMAXFREQ_PATH (normal_max_freq g) r1 w w1 ∧
    write_effect CPU1_SCALINGMAXFREQ_PATH (normal_max_freq g) r2 w1 w2.
Proof.
  intros Hstr.
  unfold p3_power_hint, bind, get_globals, put_globals. simpl.
  write_step H1. write_step H2.
  by eexists _, _, _, _.
Qed.

(** Initialisation: the capture, and one line of log. *)
Lemma init_spec (g : globals) (w : world) (g' : globals) (w0 : world) :
  store_max_freq Scaling_max_freq g w = Some (tt, g', w0) →
  is_Some (strlen (scaling_max_freq g')) →
  ∃ s, p3_power_init g w = Some (tt, g', log (ALOGI_stored s) w0).
Proof.
  intros E [n Hn]. unfold p3_power_init, bind, get_globals, libc, io.
  rewrite E. simpl. rewrite Hn. by eexists.
Qed.

(** ** Well-formed states and worlds *)

Lemma strlen_is_Some (s : list ascii) : NUL ∈ s → is_Some (strlen s).
Proof.
  intros Hin. destruct (strlen s) eqn:E; [by eexists|].
  apply strlen_None in E. done.
Qed.

Lemma zero_padded_c_string (d : list ascii) :
  (length d < MAX_BUF_SZ)%nat → c_string (zero_padded d MAX_BUF_SZ).
Proof.
  intros Hd. split; [apply length_zero_padded|]. apply strlen_is_Some.
  unfold zero_padded. apply elem_of_app. right.
  destruct (MAX_BUF_SZ - length d)%nat as [|k] eqn:E; [lia|].
  simpl. apply list_elem_of_here.
Qed.

Lemma store_max_freq_well_formed (t : target) (g g' : globals) (w w' : world) :
  well_formed g → live_fits w →
  store_max_freq t g w = Some (tt, g', w') → well_formed g'.
Proof.
  intros [[Hs1 Hs2] [Hn1 Hn2]] Hfit E.
  destruct (store_max_freq_spec t g w) as (len & buf & w0 & _ & E' & _ & _ & _ & _ & C & _).
  { right. by destruct t. }
  rewrite E in E'. simplify_eq. case_decide as Hst; [|done].
  destruct Hst as (Hlen & _). destruct C as [?|(d & Hd & _ & ->)]; [done|].
  unfold live_fits in Hfit. rewrite Hd in Hfit.
  pose proof (zero_padded_c_string d Hfit). by destruct t.
Qed.

Lemma store_max_freq_c_string (t : target) (g g' : globals) (w w' : world) :
  c_string (deref t g) → live_fits w →
  store_max_freq t g w = Some (tt, g', w') → c_string (deref t g').
Proof.
  intros [Hlen Hterm] Hfit E.
  destruct (store_max_freq_spec t g w (or_intror Hlen))
    as (len & buf & w0 & _ & E' & _ & _ & _ & _ & C & _).
  rewrite E in E'. simplify_eq. case_decide as Hst; [|done].
  destruct Hst as (Hne & _). destruct C as [?|(d & Hd & _ & ->)]; [done|].
  unfold live_fits in Hfit. rewrite Hd in Hfit.
  pose proof (zero_padded_c_string d Hfit). by destruct t.
Qed.

Lemma store_max_freq_length (t : target) (g g' : globals) (w w' : world) :
  length (scaling_max_freq g) = MAX_BUF_SZ →
  low_power_mode g = true ∨ length (deref t g) = MAX_BUF_SZ →
  store_max_freq t g w = Some (tt, g', w') →
  length (scaling_max_freq g') = MAX_BUF_SZ ∧ low_power_mode g' = low_power_mode g.
Proof.
  intros Hs Hwf E.
  destruct (store_max_freq_spec t g w Hwf) as (len & buf & w0 & _ & E' & _ & _ & _ & _ & C & _).
  rewrite E in E'. simplify_eq. case_decide as Hst; [|done].
  destruct Hst as (Hlen & _). destruct C as [?|(d & Hd & _ & ->)]; [done|].
  destruct t; simpl; [|done]. by rewrite length_zero_padded.
Qed.

Lemma write_effect_lookup_ne (path : string) s ret w w' (p : string) :
  write_effect path s ret w w' → path ≠ p → files w' !! p = files w !! p.
Proof.
  intros (_ & _ & [(_ & n & _ & _ & -> & _)|(_ & -> & _)] & _) Hne; [|done].
  by rewrite lookup_insert_ne.
Qed.

Lemma write_effect_served (path : string) s ret w w' (n : nat) :
  write_effect path s ret w w' → script w = [] → is_Some (files w !! path) →
  strlen s = Some n →
  ret = 0 ∧ files w' !! path = Some (take n s) ∧ script w' = [].
Proof.
  intros (_ & Hsc & C & Hok) Hscript Hex Hn.
  pose proof (Hok Hscript Hex) as ->. split; [done|]. split; [|by apply Hsc].
  destruct C as [(_ & m & Hm & _ & -> & _)|(? & _)]; [|done].
  rewrite lookup_insert_eq. congruence.
Qed.

Lemma write_effect_script (path : string) s ret w w' :
  write_effect path s ret w w' → script w = [] → script w' = [].
Proof. intros (_ & Hsc & _). done. Qed.

Lemma write_effect_trace (path : string) s ret w w' :
  write_effect path s ret w w' → trace w' = trace w ++ [SysfsWrite path s ret].
Proof. by intros (? & _). Qed.

Lemma paths_distinct :
  CPU0_SCALINGMAXFREQ_PATH ≠ CPU1_SCALINGMAXFREQ_PATH ∧
  CPU0_SCALINGMAXFREQ_PATH ≠ TOUCH_SUSPEND_PATH ∧
  CPU0_SCALINGMAXFREQ_PATH ≠ MPU3050_SUSPEND_PATH ∧
  CPU1_SCALINGMAXFREQ_PATH ≠ TOUCH_SUSPEND_PATH ∧
  CPU1_SCALINGMAXFREQ_PATH ≠ MPU3050_SUSPEND_PATH ∧
  TOUCH_SUSPEND_PATH ≠ MPU3050_SUSPEND_PATH.
Proof. repeat split; compute_done. Qed.

(** ** The capture and the entry points *)

(** C1.  [store_max_freq] copies the value read from the CPU0 attribute
    into its target exactly when the read did not fail, the first
    [strlen (screen_off_max_freq)] characters read differ from the
    screen-off frequency, and low-power mode is off; otherwise the whole
    state is as before.  In both cases nothing is logged and no attribute
    changes.  The value read is the attribute's, zero-padded. *)
Theorem store_max_freq_copies_iff (t : target) (g : globals) (w : world) :
  length (deref t g) = MAX_BUF_SZ →
  ∃ len buf g' w',
    sysfs_read CPU0_SCALINGMAXFREQ_PATH (replicate MAX_BUF_SZ NUL) MAX_BUF_SZ w
    = Some (len, buf, w') ∧
    store_max_freq t g w = Some (tt, g', w') ∧
    (stores len buf g → g' = assign t buf g ∧ deref t g' = buf) ∧
    (¬ stores len buf g → g' = g) ∧
    logcat w' = logcat w ∧ files w' = files w ∧
    (len ≠ -1 → ∃ d, files w !! CPU0_SCALINGMAXFREQ_PATH = Some d ∧
                     buf = zero_padded d MAX_BUF_SZ).
Proof.
  intros Hlen.
  destruct (store_max_freq_spec t g w (or_intror Hlen))
    as (len & buf & w' & Er & E & Hf & Hl & _ & _ & C & _).
  exists len, buf, (if decide (stores len buf g) then assign t buf g else g), w'.
  do 2 (split; [done|]). split; [|split; [|split; [done|split; [done|]]]].
  - intros Hst. rewrite decide_True by done. split; [done|]. by destruct t.
  - intros Hst. by rewrite decide_False.
  - intros Hne. destruct C as [?|(d & Hd & _ & ->)]; [done|]. by exists d.
Qed.

Lemma store_max_freq_copies_iff_witness :
  length (deref Scaling_max_freq initial_globals) = MAX_BUF_SZ ∧
  ∃ len buf g' w',
    sysfs_read CPU0_SCALINGMAXFREQ_PATH (replicate MAX_BUF_SZ NUL) MAX_BUF_SZ test_world
    = Some (len, buf, w') ∧
    store_max_freq Scaling_max_freq initial_globals test_world = Some (tt, g', w') ∧
    (stores len buf initial_globals →
       g' = assign Scaling_max_freq buf initial_globals ∧ deref Scaling_max_freq g' = buf) ∧
    (¬ stores len buf initial_globals → g' = initial_globals) ∧
    logcat w' = logcat test_world ∧ files w' = files test_world ∧
    (len ≠ -1 → ∃ d, files test_world !! CPU0_SCALINGMAXFREQ_PATH = Some d ∧
                     buf = zero_padded d MAX_BUF_SZ).
Proof.
  split; [reflexivity|].
  apply (store_max_freq_copies_iff Scaling_max_freq initial_globals test_world).
  reflexivity.
Defined.

Lemma write_effect_ok (path : string) s w w' (n : nat) :
  write_effect path s 0 w w' → strlen s = Some n →
  files w' = <[path := take n s]> (files w).
Proof.
  intros (_ & _ & [(_ & m & Hm & _ & -> & _)|(? & _)] & _) Hn; [|done].
  congruence.
Qed.

(** C6.  [p3_power_set_interactive] with [on == 0] first captures the
    baseline: it reads CPU0 and, when the guard of [store_max_freq]
    accepts the reading, [scaling_max_freq] holds the bytes read, and
    otherwise what it held before; [normal_max_freq] and the flag are as
    before.  Then it calls [sysfs_write] four times, in this order: the
    screen-off frequency on CPU0, the same on CPU1, ["1"] on the touch
    suspend attribute and ["1"] on the motion-sensor one.  When nothing
    fails the read is served and the four attributes hold [456000],
    [456000], [1] and [1] afterwards. *)
Theorem set_interactive_off_sequence (g : globals) (w : world) :
  length (scaling_max_freq g) = MAX_BUF_SZ →
  ∃ g' w0 len buf r1 r2 r3 r4 w',
    sysfs_read CPU0_SCALINGMAXFREQ_PATH (replicate MAX_BUF_SZ NUL) MAX_BUF_SZ w
    = Some (len, buf, w0) ∧
    (len ≠ -1 → ∃ d, files w !! CPU0_SCALINGMAXFREQ_PATH = Some d ∧
                     buf = zero_padded d MAX_BUF_SZ) ∧
    (script w = [] → is_Some (files w !! CPU0_SCALINGMAXFREQ_PATH) → len ≠ -1) ∧
    store_max_freq Scaling_max_freq g w = Some (tt, g', w0) ∧
    scaling_max_freq g' =
      (if decide (stores len buf g) then buf else scaling_max_freq g) ∧
    normal_max_freq g' = normal_max_freq g ∧
    low_power_mode g' = low_power_mode g ∧
    run (SetInteractive 0) g w = Some (g', w') ∧
    trace w0 = trace w ++ [SysfsRead CPU0_SCALINGMAXFREQ_PATH MAX_BUF_SZ len] ∧
    trace w' = trace w0 ++
      [SysfsWrite CPU0_SCALINGMAXFREQ_PATH screen_off_max_freq r1;
       SysfsWrite CPU1_SCALINGMAXFREQ_PATH screen_off_max_freq r2;
       SysfsWrite TOUCH_SUSPEND_PATH (literal "1") r3;
       SysfsWrite MPU3050_SUSPEND_PATH (literal "1") r4] ∧
    (script w = [] → all_attributes w →
     r1 = 0 ∧ r2 = 0 ∧ r3 = 0 ∧ r4 = 0 ∧
     files w' =
       <[MPU3050_SUSPEND_PATH := chars "1"]>
       (<[TOUCH_SUSPEND_PATH := chars "1"]>
       (<[CPU1_SCALINGMAXFREQ_PATH := chars "456000"]>
       (<[CPU0_SCALINGMAXFREQ_PATH := chars "456000"]> (files w))))).
Proof.
  intros Hlen.
  destruct (set_interactive_off_spec g w (or_intror Hlen))
    as (g' & w0 & r1 & w1 & r2 & w2 & r3 & w3 & r4 & w4 & Est & E & H1 & H2 & H3 & H4).
  destruct (store_max_freq_spec Scaling_max_freq g w (or_intror Hlen))
    as (len & buf & w0' & Er & Est' & Hf0 & _ & Ht0 & Hs0 & C & Hok).
  rewrite Est in Est'. injection Est' as Hg Hw. subst w0'.
  exists g', w0, len, buf, r1, r2, r3, r4, w4.
  split; [exact Er|]. split.
  { intros Hne. destruct C as [?|(d & Hd & _ & ->)]; [done|]. by exists d. }
  split; [exact Hok|]. split; [exact Est|].
  split; [rewrite Hg; by case_decide|].
  split; [rewrite Hg; by case_decide|].
  split; [rewrite Hg; by case_decide|].
  split; [unfold run; by rewrite E|]. split; [done|]. split.
  - rewrite (write_effect_trace _ _ _ _ _ H4), (write_effect_trace _ _ _ _ _ H3),
      (write_effect_trace _ _ _ _ _ H2), (write_effect_trace _ _ _ _ _ H1).
    by rewrite <- !app_assoc.
  - intros Hsc (A0 & A1 & A2 & A3).
    destruct paths_distinct as (D01 & D02 & D03 & D12 & D13 & D23).
    destruct (write_effect_served _ _ _ _ _ 6%nat H1) as (-> & _ & Hsc1);
      [by apply Hs0|by rewrite Hf0|done|].
    destruct (write_effect_served _ _ _ _ _ 6%nat H2) as (-> & _ & Hsc2);
      [done|by rewrite (write_effect_lookup_ne _ _ _ _ _ _ H1), Hf0|done|].
    destruct (write_effect_served _ _ _ _ _ 1%nat H3) as (-> & _ & Hsc3);
      [done| |done|].
    { by rewrite (write_effect_lookup_ne _ _ _ _ _ _ H2),
        (write_effect_lookup_ne _ _ _ _ _ _ H1), Hf0. }
    destruct (write_effect_served _ _ _ _ _ 1%nat H4) as (-> & _ & Hsc4);
      [done| |done|].
    { by rewrite (write_effect_lookup_ne _ _ _ _ _ _ H3),
        (write_effect_lookup_ne _ _ _ _ _ _ H2),
        (write_effect_lookup_ne _ _ _ _ _ _ H1), Hf0. }
    do 4 (split; [done|]).
    rewrite (write_effect_ok _ _ _ _ 1%nat H4), (write_effect_ok _ _ _ _ 1%nat H3),
      (write_effect_ok _ _ _ _ 6%nat H2), (write_effect_ok _ _ _ _ 6%nat H1), Hf0; done.
Qed.

Lemma set_interactive_off_sequence_witness :
  length (scaling_max_freq initial_globals) = MAX_BUF_SZ ∧
  ∃ g' w0 len buf r1 r2 r3 r4 w',
    sysfs_read CPU0_SCALINGMAXFREQ_PATH (replicate MAX_BUF_SZ NUL) MAX_BUF_SZ world_760000
    = Some (len, buf, w0) ∧
    (len ≠ -1 → ∃ d, files world_760000 !! CPU0_SCALINGMAXFREQ_PATH = Some d ∧
                     buf = zero_padded d MAX_BUF_SZ) ∧
    (script world_760000 = [] →
     is_Some (files world_760000 !! CPU0_SCALINGMAXFREQ_PATH) → len ≠ -1) ∧
    store_max_freq Scaling_max_freq initial_globals world_760000 = Some (tt, g', w0) ∧
    scaling_max_freq g' =
      (if decide (stores len buf initial_globals) then buf
       else scaling_max_freq initial_globals) ∧
    normal_max_freq g' = normal_max_freq initial_globals ∧
    low_power_mode g' = low_power_mode initial_globals ∧
    run (SetInteractive 0) initial_globals world_760000 = Some (g', w') ∧
    trace w0 = trace world_760000 ++ [SysfsRead CPU0_SCALINGMAXFREQ_PATH MAX_BUF_SZ len] ∧
    trace w' = trace w0 ++
      [SysfsWrite CPU0_SCALINGMAXFREQ_PATH screen_off_max_freq r1;
       SysfsWrite CPU1_SCALINGMAXFREQ_PATH screen_off_max_freq r2;
       SysfsWrite TOUCH_SUSPEND_PATH (literal "1") r3;
       SysfsWrite MPU3050_SUSPEND_PATH (literal "1") r4] ∧
    (script world_760000 = [] → all_attributes world_760000 →
     r1 = 0 ∧ r2 = 0 ∧ r3 = 0 ∧ r4 = 0 ∧
     files w' =
       <[MPU3050_SUSPEND_PATH := chars "1"]>
       (<[TOUCH_SUSPEND_PATH := chars "1"]>
       (<[CPU1_SCALINGMAXFREQ_PATH := chars "456000"]>
       (<[CPU0_SCALINGMAXFREQ_PATH := chars "456000"]> (files world_760000))))).
Proof.
  split; [reflexivity|].
  apply (set_interactive_off_sequence initial_globals world_760000). reflexivity.
Defined.

(** The capture of a screen-off call at work: CPU0 reads [760000], which
    [scaling_max_freq] holds afterwards while the attribute is at
    [456000]. *)
Example screen_off_captures_760000 :
  (λ r, (fst <$> r, (λ x, files (snd x) !! CPU0_SCALINGMAXFREQ_PATH) <$> r))
    (run (SetInteractive 0) initial_globals world_760000)
  = (Some (Globals (char_array MAX_BUF_SZ "760000") (char_array MAX_BUF_SZ "1000000") false),
     Some (Some (chars "456000"))).
Proof. vm_compute. reflexivity. Qed.

(** C9.  A hint other than the low-power one changes neither the flag nor
    the stored frequencies, makes no [sysfs_read] or [sysfs_write] call
    and touches no attribute; [POWER_HINT_LAUNCH] logs one verbose line,
    the others do nothing at all. *)
Theorem power_hint_other_no_effect (hint : power_hint_t) (data : Z)
    (g : globals) (w : world) :
  hint ≠ POWER_HINT_LOW_POWER →
  ∃ w', run (PowerHint hint data) g w = Some (g, w') ∧
        files w' = files w ∧ trace w' = trace w ∧ script w' = script w ∧
        (hint ≠ POWER_HINT_LAUNCH → w' = w).
Proof.
  intros Hne. destruct hint; try done; simpl.
  - exists w. by repeat split.
  - exists w. by repeat split.
  - exists (log ALOGV_launch w). by repeat split.
  - exists w. by repeat split.
Qed.

Lemma power_hint_other_no_effect_witness :
  POWER_HINT_LAUNCH ≠ POWER_HINT_LOW_POWER ∧
  ∃ w', run (PowerHint POWER_HINT_LAUNCH 0) initial_globals test_world
        = Some (initial_globals, w') ∧
        files w' = files test_world ∧ trace w' = trace test_world ∧
        script w' = script test_world ∧
        (POWER_HINT_LAUNCH ≠ POWER_HINT_LAUNCH → w' = test_world).
Proof.
  split; [discriminate|].
  apply (power_hint_other_no_effect POWER_HINT_LAUNCH 0 initial_globals test_world).
  discriminate.
Defined.

(** C10.  The low-power hint with data, given while the flag is already
    set, leaves [normal_max_freq] as it was, and the rest of the state
    too: the capture runs before the assignment of the flag, and the flag
    turns the store down whatever the attribute reads. *)
Theorem power_hint_enable_twice (data : Z) (g : globals) (w : world) :
  data ≠ 0 → low_power_mode g = true →
  ∃ g' w0 w',
    store_max_freq Normal_max_freq g w = Some (tt, g, w0) ∧
    run (PowerHint POWER_HINT_LOW_POWER data) g w = Some (g', w') ∧
    normal_max_freq g' = normal_max_freq g ∧
    scaling_max_freq g' = scaling_max_freq g ∧
    low_power_mode g' = true.
Proof.
  intros Hdata Hlp.
  destruct (power_hint_enable_spec data g w Hdata (or_introl Hlp))
    as (g' & w0 & r1 & w1 & r2 & w2 & Est & E & _).
  destruct (store_max_freq_spec Normal_max_freq g w (or_introl Hlp))
    as (len & buf & w0' & _ & Est' & _).
  rewrite decide_False in Est' by (intros (_ & _ & ?); congruence).
  rewrite Est in Est'. simplify_eq.
  eexists _, _, _. split; [exact Est|]. split; [unfold run; by rewrite E|]. done.
Qed.

Lemma power_hint_enable_twice_witness :
  1 ≠ 0 ∧ low_power_mode (set_low_power_mode true initial_globals) = true ∧
  ∃ g' w0 w',
    store_max_freq Normal_max_freq (set_low_power_mode true initial_globals) test_world
    = Some (tt, set_low_power_mode true initial_globals, w0) ∧
    run (PowerHint POWER_HINT_LOW_POWER 1) (set_low_power_mode true initial_globals) test_world
    = Some (g', w') ∧
    normal_max_freq g' = normal_max_freq (set_low_power_mode true initial_globals) ∧
    scaling_max_freq g' = scaling_max_freq (set_low_power_mode true initial_globals) ∧
    low_power_mode g' = true.
Proof.
  split; [lia|]. split; [reflexivity|].
  apply (power_hint_enable_twice 1 (set_low_power_mode true initial_globals) test_world);
    [lia|reflexivity].
Defined.

(** ** Worlds that serve every call *)

Lemma serving_after_write (path : string) s ret w w' :
  write_effect path s ret w w' → serving w → serving w'.
Proof.
  intros H (Hsc & H0 & H1). split; [by eapply write_effect_script|].
  split; by eapply write_effect_files.
Qed.

Lemma serving_after_store (t : target) (g g' : globals) (w w' : world) :
  low_power_mode g = true ∨ length (deref t g) = MAX_BUF_SZ →
  store_max_freq t g w = Some (tt, g', w') → serving w → serving w'.
Proof.
  intros Hwf E (Hsc & H0 & H1).
  destruct (store_max_freq_spec t g w Hwf) as (len & buf & w0 & _ & E' & Hf & _ & _ & Hs & _).
  rewrite E in E'. simplify_eq. split; [by apply Hs|]. by rewrite Hf.
Qed.

(** What the capture stores in a world that serves the read. *)
Lemma store_max_freq_served (t : target) (g g' : globals) (w w' : world) (d : list ascii) :
  length (deref t g) = MAX_BUF_SZ →
  script w = [] → files w !! CPU0_SCALINGMAXFREQ_PATH = Some d →
  store_max_freq t g w = Some (tt, g', w') →
  g' = if decide (take 6 (zero_padded d MAX_BUF_SZ) ≠ chars "456000" ∧
                  low_power_mode g = false)
       then assign t (zero_padded d MAX_BUF_SZ) g else g.
Proof.
  intros Hlen Hsc Hd E.
  destruct (store_max_freq_spec t g w (or_intror Hlen))
    as (len & buf & w0 & _ & E' & _ & _ & _ & _ & C & Hok).
  rewrite E in E'. simplify_eq.
  assert (len ≠ -1) as Hne by (apply Hok; [done|by eexists]).
  destruct C as [?|(d' & Hd' & _ & ->)]; [done|].
  assert (d' = d) as -> by congruence.
  unfold stores. change (length (chars "456000")) with 6%nat.
  destruct (decide (take 6 (zero_padded d MAX_BUF_SZ) ≠ chars "456000" ∧
                    low_power_mode g = false)) as [[? ?]|Hn].
  - by rewrite decide_True.
  - rewrite decide_False; [done|]. intros (_ & ? & ?). by apply Hn.
Qed.

Lemma set_interactive_on_normal_served (on : Z) (g : globals) (w : world) (n : nat) :
  on ≠ 0 → low_power_mode g = false → strlen (scaling_max_freq g) = Some n →
  serving w →
  ∃ w', run (SetInteractive on) g w = Some (g, w') ∧
        files w' !! CPU0_SCALINGMAXFREQ_PATH = Some (take n (scaling_max_freq g)) ∧
        files w' !! CPU1_SCALINGMAXFREQ_PATH = Some (take n (scaling_max_freq g)) ∧
        serving w'.
Proof.
  intros Hon Hlp Hn Hserv.
  destruct (set_interactive_on_normal_spec on g w Hon Hlp)
    as (r1 & w1 & r2 & w2 & r3 & w3 & r4 & w4 & E & H1 & H2 & H3 & H4); [by eexists|].
  destruct paths_distinct as (D01 & D02 & D03 & D12 & D13 & D23).
  pose proof (serving_after_write _ _ _ _ _ H1 Hserv) as Hserv1.
  pose proof (serving_after_write _ _ _ _ _ H2 Hserv1) as Hserv2.
  pose proof (serving_after_write _ _ _ _ _ H3 Hserv2) as Hserv3.
  pose proof (serving_after_write _ _ _ _ _ H4 Hserv3) as Hserv4.
  destruct Hserv as (Hsc & A0 & A1). destruct Hserv1 as (Hsc1 & B0 & B1).
  destruct (write_effect_served _ _ _ _ _ n H1) as (_ & F0 & _); [done..|].
  destruct (write_effect_served _ _ _ _ _ n H2) as (_ & F1 & _); [done..|].
  exists w4. split; [unfold run; by rewrite E|]. split; [|split; [|done]].
  - rewrite (write_effect_lookup_ne _ _ _ _ _ _ H4) by done.
    rewrite (write_effect_lookup_ne _ _ _ _ _ _ H3) by done.
    by rewrite (write_effect_lookup_ne _ _ _ _ _ _ H2) by done.
  - rewrite (write_effect_lookup_ne _ _ _ _ _ _ H4) by done.
    by rewrite (write_effect_lookup_ne _ _ _ _ _ _ H3) by done.
Qed.

(** C3.  Outside low-power mode, in a world that serves the calls,
    screen off followed by screen on leaves in both CPU attributes the
    string held by [scaling_max_freq] after the screen-off call; that is
    the value CPU0 read before the screen went off whenever the capture
    took it. *)
Theorem screen_off_on_round_trip (on : Z) (g : globals) (w : world) (d : list ascii) :
  c_string (scaling_max_freq g) → low_power_mode g = false → on ≠ 0 →
  serving w → files w !! CPU0_SCALINGMAXFREQ_PATH = Some d →
  (length d < MAX_BUF_SZ)%nat →
  ∃ g1 w1 w2 n,
    run (SetInteractive 0) g w = Some (g1, w1) ∧
    run (SetInteractive on) g1 w1 = Some (g1, w2) ∧
    strlen (scaling_max_freq g1) = Some n ∧
    files w2 !! CPU0_SCALINGMAXFREQ_PATH = Some (take n (scaling_max_freq g1)) ∧
    files w2 !! CPU1_SCALINGMAXFREQ_PATH = Some (take n (scaling_max_freq g1)) ∧
    scaling_max_freq g1 =
      (if decide (take 6 (zero_padded d MAX_BUF_SZ) ≠ chars "456000")
       then zero_padded d MAX_BUF_SZ else scaling_max_freq g).
Proof.
  intros Hwf Hlp Hon Hserv Hd Hfit.
  pose proof Hwf as [Hlen _].
  destruct (set_interactive_off_spec g w (or_intror Hlen))
    as (g1 & w0 & r1 & w1 & r2 & w2 & r3 & w3 & r4 & w4 & Est & E & H1 & H2 & H3 & H4).
  assert (c_string (scaling_max_freq g1)) as Hwf1.
  { eapply (store_max_freq_c_string Scaling_max_freq); [done| |done].
    unfold live_fits. by rewrite Hd. }
  destruct (store_max_freq_length Scaling_max_freq _ _ _ _ Hlen (or_intror Hlen) Est)
    as [_ Hlp1].
  pose proof (serving_after_store Scaling_max_freq _ _ _ _ (or_intror Hlen) Est Hserv)
    as Hserv0.
  pose proof (serving_after_write _ _ _ _ _ H1 Hserv0) as Hserv1.
  pose proof (serving_after_write _ _ _ _ _ H2 Hserv1) as Hserv2.
  pose proof (serving_after_write _ _ _ _ _ H3 Hserv2) as Hserv3.
  pose proof (serving_after_write _ _ _ _ _ H4 Hserv3) as Hserv4.
  destruct Hwf1 as [_ [n Hn]].
  destruct (set_interactive_on_normal_served on g1 w4 n) as (w' & E' & F0 & F1 & _);
    [done|congruence|done|done|].
  exists g1, w4, w', n. split; [unfold run; by rewrite E|].
  do 4 (split; [done|]).
  destruct Hserv as (Hsc & _).
  rewrite (store_max_freq_served Scaling_max_freq _ _ _ _ d Hlen Hsc Hd Est).
  destruct (decide (take 6 (zero_padded d MAX_BUF_SZ) ≠ chars "456000")) as [Hp|Hp].
  - rewrite decide_True by (split; [exact Hp|exact Hlp]). done.
  - rewrite decide_False; [done|]. by intros [? _].
Qed.

Lemma screen_off_on_round_trip_witness :
  c_string (scaling_max_freq initial_globals) ∧
  low_power_mode initial_globals = false ∧ 1 ≠ 0 ∧
  serving test_world ∧
  files test_world !! CPU0_SCALINGMAXFREQ_PATH = Some (chars "1000000") ∧
  (length (chars "1000000") < MAX_BUF_SZ)%nat ∧
  ∃ g1 w1 w2 n,
    run (SetInteractive 0) initial_globals test_world = Some (g1, w1) ∧
    run (SetInteractive 1) g1 w1 = Some (g1, w2) ∧
    strlen (scaling_max_freq g1) = Some n ∧
    files w2 !! CPU0_SCALINGMAXFREQ_PATH = Some (take n (scaling_max_freq g1)) ∧
    files w2 !! CPU1_SCALINGMAXFREQ_PATH = Some (take n (scaling_max_freq g1)) ∧
    scaling_max_freq g1 =
      (if decide (take 6 (zero_padded (chars "1000000") MAX_BUF_SZ) ≠ chars "456000")
       then zero_padded (chars "1000000") MAX_BUF_SZ
       else scaling_max_freq initial_globals).
Proof.
  assert (c_string (scaling_max_freq initial_globals)) as Hwf.
  { split; [reflexivity|by eexists]. }
  assert (serving test_world) as Hserv.
  { split; [reflexivity|]. split; by eexists. }
  assert ((length (chars "1000000") < MAX_BUF_SZ)%nat) as Hfit by (vm_compute; lia).
  split; [exact Hwf|]. split; [reflexivity|]. split; [lia|]. split; [exact Hserv|].
  split; [reflexivity|]. split; [exact Hfit|].
  apply (screen_off_on_round_trip 1 initial_globals test_world (chars "1000000"));
    [exact Hwf|reflexivity|lia|exact Hserv|reflexivity|exact Hfit].
Defined.

Lemma power_hint_disable_served (g : globals) (w : world) (n : nat) :
  strlen (normal_max_freq g) = Some n → serving w →
  ∃ w', run (PowerHint POWER_HINT_LOW_POWER 0) g w
        = Some (set_low_power_mode false g, w') ∧
        files w' !! CPU0_SCALINGMAXFREQ_PATH = Some (take n (normal_max_freq g)) ∧
        files w' !! CPU1_SCALINGMAXFREQ_PATH = Some (take n (normal_max_freq g)).
Proof.
  intros Hn Hserv.
  destruct (power_hint_disable_spec g w) as (r1 & w1 & r2 & w2 & E & H1 & H2); [by eexists|].
  destruct paths_distinct as (D01 & _).
  pose proof (serving_after_write _ _ _ _ _ H1 Hserv) as Hserv1.
  destruct Hserv as (Hsc & A0 & A1). destruct Hserv1 as (Hsc1 & B0 & B1).
  destruct (write_effect_served _ _ _ _ _ n H1) as (_ & F0 & _); [done..|].
  destruct (write_effect_served _ _ _ _ _ n H2) as (_ & F1 & _); [done..|].
  exists w2. split; [unfold run; by rewrite E|]. split; [|done].
  by rewrite (write_effect_lookup_ne _ _ _ _ _ _ H2) by done.
Qed.

(** C5.  In a world that serves the calls, the low-power hint with data
    followed by the low-power hint without data leaves in both CPU
    attributes the string held by [normal_max_freq] after the first hint,
    and the flag off.  [normal_max_freq] after the first hint is the value
    CPU0 read when that hint arrived, if the capture took it, and what it
    was before otherwise. *)
Theorem low_power_hint_toggle (data : Z) (g : globals) (w : world) (d : list ascii) :
  c_string (normal_max_freq g) → data ≠ 0 →
  serving w → files w !! CPU0_SCALINGMAXFREQ_PATH = Some d →
  (length d < MAX_BUF_SZ)%nat →
  ∃ g1 w1 g2 w2 n,
    run (PowerHint POWER_HINT_LOW_POWER data) g w = Some (g1, w1) ∧
    run (PowerHint POWER_HINT_LOW_POWER 0) g1 w1 = Some (g2, w2) ∧
    strlen (normal_max_freq g1) = Some n ∧
    files w2 !! CPU0_SCALINGMAXFREQ_PATH = Some (take n (normal_max_freq g1)) ∧
    files w2 !! CPU1_SCALINGMAXFREQ_PATH = Some (take n (normal_max_freq g1)) ∧
    low_power_mode g2 = false ∧ normal_max_freq g2 = normal_max_freq g1 ∧
    normal_max_freq g1 =
      (if decide (take 6 (zero_padded d MAX_BUF_SZ) ≠ chars "456000" ∧
                  low_power_mode g = false)
       then zero_padded d MAX_BUF_SZ else normal_max_freq g).
Proof.
  intros Hwf Hdata Hserv Hd Hfit.
  pose proof Hwf as [Hlen _].
  destruct (power_hint_enable_spec data g w Hdata (or_intror Hlen))
    as (g' & w0 & r1 & w1 & r2 & w2 & Est & E & H1 & H2).
  assert (c_string (normal_max_freq g')) as Hwf'.
  { eapply (store_max_freq_c_string Normal_max_freq); [done| |done].
    unfold live_fits. by rewrite Hd. }
  pose proof (serving_after_store Normal_max_freq _ _ _ _ (or_intror Hlen) Est Hserv)
    as Hserv0.
  pose proof (serving_after_write _ _ _ _ _ H1 Hserv0) as Hserv1.
  pose proof (serving_after_write _ _ _ _ _ H2 Hserv1) as Hserv2.
  destruct Hwf' as [_ [n Hn]].
  destruct (power_hint_disable_served (set_low_power_mode true g') w2 n)
    as (w' & E' & F0 & F1); [done|done|].
  exists (set_low_power_mode true g'), w2,
    (set_low_power_mode false (set_low_power_mode true g')), w', n.
  split; [unfold run; by rewrite E|]. do 6 (split; [done|]).
  destruct Hserv as (Hsc & _).
  change (normal_max_freq (set_low_power_mode true g')) with (normal_max_freq g').
  rewrite (store_max_freq_served Normal_max_freq _ _ _ _ d Hlen Hsc Hd Est).
  by case_decide.
Qed.

Lemma low_power_hint_toggle_witness :
  c_string (normal_max_freq initial_globals) ∧ 1 ≠ 0 ∧ serving test_world ∧
  files test_world !! CPU0_SCALINGMAXFREQ_PATH = Some (chars "1000000") ∧
  (length (chars "1000000") < MAX_BUF_SZ)%nat ∧
  ∃ g1 w1 g2 w2 n,
    run (PowerHint POWER_HINT_LOW_POWER 1) initial_globals test_world = Some (g1, w1) ∧
    run (PowerHint POWER_HINT_LOW_POWER 0) g1 w1 = Some (g2, w2) ∧
    strlen (normal_max_freq g1) = Some n ∧
    files w2 !! CPU0_SCALINGMAXFREQ_PATH = Some (take n (normal_max_freq g1)) ∧
    files w2 !! CPU1_SCALINGMAXFREQ_PATH = Some (take n (normal_max_freq g1)) ∧
    low_power_mode g2 = false ∧ normal_max_freq g2 = normal_max_freq g1 ∧
    normal_max_freq g1 =
      (if decide (take 6 (zero_padded (chars "1000000") MAX_BUF_SZ) ≠ chars "456000" ∧
                  low_power_mode initial_globals = false)
       then zero_padded (chars "1000000") MAX_BUF_SZ
       else normal_max_freq initial_globals).
Proof.
  assert (c_string (normal_max_freq initial_globals)) as Hwf.
  { split; [reflexivity|by eexists]. }
  assert (serving test_world) as Hserv.
  { split; [reflexivity|]. split; by eexists. }
  assert ((length (chars "1000000") < MAX_BUF_SZ)%nat) as Hfit by (vm_compute; lia).
  split; [exact Hwf|]. split; [lia|]. split; [exact Hserv|].
  split; [reflexivity|]. split; [exact Hfit|].
  apply (low_power_hint_toggle 1 initial_globals test_world (chars "1000000"));
    [exact Hwf|lia|exact Hserv|reflexivity|exact Hfit].
Defined.

(** The guard at work: when CPU0 reads a value that begins with the
    screen-off frequency, the capture leaves the state alone, whether the
    read is served or not. *)
Lemma store_max_freq_rejects_screen_off (t : target) (g g' : globals) (w w' : world)
    (d : list ascii) :
  low_power_mode g = true ∨ length (deref t g) = MAX_BUF_SZ →
  files w !! CPU0_SCALINGMAXFREQ_PATH = Some d →
  take 6 (zero_padded d MAX_BUF_SZ) = chars "456000" →
  store_max_freq t g w = Some (tt, g', w') → g' = g.
Proof.
  intros Hwf Hd Hp E.
  destruct (store_max_freq_spec t g w Hwf) as (len & buf & w0 & _ & E' & _ & _ & _ & _ & C & _).
  rewrite E in E'. simplify_eq. case_decide as Hst; [|done].
  destruct Hst as (Hlen & Hne & _). destruct C as [?|(d' & Hd' & _ & ->)]; [done|].
  assert (d' = d) as -> by congruence. done.
Qed.

(** One screen-off call, with what it leaves in the CPU attributes when
    the world serves it. *)
Lemma screen_off_call (g : globals) (w : world) :
  length (scaling_max_freq g) = MAX_BUF_SZ →
  ∃ g1 w0 w1 len r1 r2 r3 r4,
    store_max_freq Scaling_max_freq g w = Some (tt, g1, w0) ∧
    files w0 = files w ∧
    run (SetInteractive 0) g w = Some (g1, w1) ∧
    length (scaling_max_freq g1) = MAX_BUF_SZ ∧
    trace w1 = trace w ++
      [SysfsRead CPU0_SCALINGMAXFREQ_PATH MAX_BUF_SZ len;
       SysfsWrite CPU0_SCALINGMAXFREQ_PATH screen_off_max_freq r1;
       SysfsWrite CPU1_SCALINGMAXFREQ_PATH screen_off_max_freq r2;
       SysfsWrite TOUCH_SUSPEND_PATH (literal "1") r3;
       SysfsWrite MPU3050_SUSPEND_PATH (literal "1") r4] ∧
    (serving w → r1 = 0 ∧ r2 = 0 ∧
       files w1 !! CPU0_SCALINGMAXFREQ_PATH = Some (chars "456000") ∧
       files w1 !! CPU1_SCALINGMAXFREQ_PATH = Some (chars "456000")).
Proof.
  intros Hlen.
  destruct (set_interactive_off_spec g w (or_intror Hlen))
    as (g1 & w0 & r1 & w1 & r2 & w2 & r3 & w3 & r4 & w4 & Est & E & H1 & H2 & H3 & H4).
  destruct (store_max_freq_spec Scaling_max_freq g w (or_intror Hlen))
    as (len & buf & w0' & _ & Est' & Hf0 & _ & Ht0 & Hs0 & _).
  destruct (store_max_freq_length Scaling_max_freq _ _ _ _ Hlen (or_intror Hlen) Est)
    as [Hlen1 _].
  rewrite Est in Est'. injection Est' as Hg Hw. subst w0'.
  exists g1, w0, w4, len, r1, r2, r3, r4.
  split; [done|]. split; [done|]. split; [unfold run; by rewrite E|].
  split; [done|]. split.
  - rewrite (write_effect_trace _ _ _ _ _ H4), (write_effect_trace _ _ _ _ _ H3),
      (write_effect_trace _ _ _ _ _ H2), (write_effect_trace _ _ _ _ _ H1), Ht0.
    by rewrite <- !app_assoc.
  - intros Hserv.
    destruct paths_distinct as (D01 & D02 & D03 & D12 & D13 & D23).
    pose proof (serving_after_store Scaling_max_freq _ _ _ _ (or_intror Hlen) Est Hserv)
      as Hserv0.
    pose proof (serving_after_write _ _ _ _ _ H1 Hserv0) as Hserv1.
    destruct Hserv0 as (Hsc0 & A0 & A1). destruct Hserv1 as (Hsc1 & B0 & B1).
    destruct (write_effect_served _ _ _ _ _ 6%nat H1) as (-> & F0 & _); [done..|].
    destruct (write_effect_served _ _ _ _ _ 6%nat H2) as (-> & F1 & _); [done..|].
    do 2 (split; [done|]). split.
    + rewrite (write_effect_lookup_ne _ _ _ _ _ _ H4) by done.
      rewrite (write_effect_lookup_ne _ _ _ _ _ _ H3) by done.
      by rewrite (write_effect_lookup_ne _ _ _ _ _ _ H2) by done.
    + rewrite (write_effect_lookup_ne _ _ _ _ _ _ H4) by done.
      by rewrite (write_effect_lookup_ne _ _ _ _ _ _ H3) by done.
Qed.

(** C4.  Two screen-off calls in a row.  Each runs the capture and then
    calls [sysfs_write] with the screen-off frequency on CPU0 and on CPU1
    (and ["1"] on the two suspend attributes).  When CPU0 reads back the
    screen-off frequency after the first call, as it does in a world that
    serves the calls, the second call leaves the whole state, and with it
    [scaling_max_freq], as the first call left it. *)
Theorem screen_off_twice (g : globals) (w : world) :
  length (scaling_max_freq g) = MAX_BUF_SZ →
  ∃ g1 w1 len1 r1 r2 r3 r4,
    run (SetInteractive 0) g w = Some (g1, w1) ∧
    trace w1 = trace w ++
      [SysfsRead CPU0_SCALINGMAXFREQ_PATH MAX_BUF_SZ len1;
       SysfsWrite CPU0_SCALINGMAXFREQ_PATH screen_off_max_freq r1;
       SysfsWrite CPU1_SCALINGMAXFREQ_PATH screen_off_max_freq r2;
       SysfsWrite TOUCH_SUSPEND_PATH (literal "1") r3;
       SysfsWrite MPU3050_SUSPEND_PATH (literal "1") r4] ∧
    (serving w → r1 = 0 ∧ r2 = 0 ∧
       files w1 !! CPU0_SCALINGMAXFREQ_PATH = Some (chars "456000") ∧
       files w1 !! CPU1_SCALINGMAXFREQ_PATH = Some (chars "456000")) ∧
    ((∃ d, files w1 !! CPU0_SCALINGMAXFREQ_PATH = Some d ∧
           take 6 (zero_padded d MAX_BUF_SZ) = chars "456000") →
     ∃ w2 len2 q1 q2 q3 q4,
       run (SetInteractive 0) g1 w1 = Some (g1, w2) ∧
       trace w2 = trace w1 ++
         [SysfsRead CPU0_SCALINGMAXFREQ_PATH MAX_BUF_SZ len2;
          SysfsWrite CPU0_SCALINGMAXFREQ_PATH screen_off_max_freq q1;
          SysfsWrite CPU1_SCALINGMAXFREQ_PATH screen_off_max_freq q2;
          SysfsWrite TOUCH_SUSPEND_PATH (literal "1") q3;
          SysfsWrite MPU3050_SUSPEND_PATH (literal "1") q4] ∧
       (serving w1 → q1 = 0 ∧ q2 = 0 ∧
          files w2 !! CPU0_SCALINGMAXFREQ_PATH = Some (chars "456000") ∧
          files w2 !! CPU1_SCALINGMAXFREQ_PATH = Some (chars "456000"))).
Proof.
  intros Hlen.
  destruct (screen_off_call g w Hlen)
    as (g1 & w0 & w1 & len1 & r1 & r2 & r3 & r4 & _ & _ & E1 & Hlen1 & Ht1 & Hserved1).
  exists g1, w1, len1, r1, r2, r3, r4.
  do 3 (split; [done|]). intros (d & Hback & Hprefix).
  destruct (screen_off_call g1 w1 Hlen1)
    as (g2 & v0 & w2 & len2 & q1 & q2 & q3 & q4 & Est & Hf & E2 & _ & Ht2 & Hserved2).
  assert (g2 = g1) as ->.
  { eapply (store_max_freq_rejects_screen_off Scaling_max_freq);
      [by right|exact Hback|exact Hprefix|exact Est]. }
  by exists w2, len2, q1, q2, q3, q4.
Qed.

Lemma screen_off_twice_witness :
  length (scaling_max_freq initial_globals) = MAX_BUF_SZ ∧
  ∃ g1 w1 len1 r1 r2 r3 r4,
    run (SetInteractive 0) initial_globals test_world = Some (g1, w1) ∧
    trace w1 = trace test_world ++
      [SysfsRead CPU0_SCALINGMAXFREQ_PATH MAX_BUF_SZ len1;
       SysfsWrite CPU0_SCALINGMAXFREQ_PATH screen_off_max_freq r1;
       SysfsWrite CPU1_SCALINGMAXFREQ_PATH screen_off_max_freq r2;
       SysfsWrite TOUCH_SUSPEND_PATH (literal "1") r3;
       SysfsWrite MPU3050_SUSPEND_PATH (literal "1") r4] ∧
    (serving test_world → r1 = 0 ∧ r2 = 0 ∧
       files w1 !! CPU0_SCALINGMAXFREQ_PATH = Some (chars "456000") ∧
       files w1 !! CPU1_SCALINGMAXFREQ_PATH = Some (chars "456000")) ∧
    ((∃ d, files w1 !! CPU0_SCALINGMAXFREQ_PATH = Some d ∧
           take 6 (zero_padded d MAX_BUF_SZ) = chars "456000") →
     ∃ w2 len2 q1 q2 q3 q4,
       run (SetInteractive 0) g1 w1 = Some (g1, w2) ∧
       trace w2 = trace w1 ++
         [SysfsRead CPU0_SCALINGMAXFREQ_PATH MAX_BUF_SZ len2;
          SysfsWrite CPU0_SCALINGMAXFREQ_PATH screen_off_max_freq q1;
          SysfsWrite CPU1_SCALINGMAXFREQ_PATH screen_off_max_freq q2;
          SysfsWrite TOUCH_SUSPEND_PATH (literal "1") q3;
          SysfsWrite MPU3050_SUSPEND_PATH (literal "1") q4] ∧
       (serving w1 → q1 = 0 ∧ q2 = 0 ∧
          files w2 !! CPU0_SCALINGMAXFREQ_PATH = Some (chars "456000") ∧
          files w2 !! CPU1_SCALINGMAXFREQ_PATH = Some (chars "456000"))).
Proof.
  split; [reflexivity|].
  apply (screen_off_twice initial_globals test_world). reflexivity.
Defined.

(** ** Failures do not cut a sequence short *)

Lemma attempts_app (tr1 tr2 : list event) :
  attempts (tr1 ++ tr2) = attempts tr1 ++ attempts tr2.
Proof. apply omap_app. Qed.

Lemma store_max_freq_trace (t : target) (g g' : globals) (w w' : world) :
  low_power_mode g = true ∨ length (deref t g) = MAX_BUF_SZ →
  store_max_freq t g w = Some (tt, g', w') →
  attempts (trace w') = attempts (trace w).
Proof.
  intros Hwf E.
  destruct (store_max_freq_spec t g w Hwf) as (len & buf & w0 & _ & E' & _ & _ & Ht & _).
  rewrite E in E'. simplify_eq. rewrite Ht, attempts_app. simpl. by rewrite app_nil_r.
Qed.

Lemma write_effect_attempts (path : string) s ret w w' :
  write_effect path s ret w w' →
  attempts (trace w') = attempts (trace w) ++ [(path, c_str s)].
Proof. intros (-> & _). by rewrite attempts_app. Qed.

(** C7.  From a well-formed state, and with a CPU0 value that fits the
    buffer, every entry point returns, whatever attributes are missing
    and whatever failures are scripted for its system calls, and the
    [sysfs_write] calls it makes are those planned from its arguments and
    the state at entry: no failure removes a later write.  For screen off
    the trace ends with the touch-suspend write followed by the
    motion-sensor suspend write, whatever the former returned. *)
Theorem entry_points_isolate_failures (c : call) (g : globals) (w : world) :
  well_formed g → live_fits w →
  ∃ g' w',
    run c g w = Some (g', w') ∧
    attempts (trace w') = attempts (trace w) ++ planned_writes c g ∧
    (c = SetInteractive 0 →
     ∃ tr r3 r4,
       trace w' = tr ++ [SysfsWrite TOUCH_SUSPEND_PATH (literal "1") r3;
                         SysfsWrite MPU3050_SUSPEND_PATH (literal "1") r4]).
Proof.
  intros Hwf Hfit. pose proof Hwf as [[Hls [ns Hns]] [Hln [nn Hnn]]].
  destruct c as [|on|hint data].
  - destruct (store_max_freq_spec Scaling_max_freq g w (or_intror Hls))
      as (len & buf & w0 & _ & Est & _).
    pose proof (store_max_freq_well_formed _ _ _ _ _ Hwf Hfit Est) as [[_ Hterm] _].
    destruct (init_spec g w _ w0 Est Hterm) as (s & E).
    eexists _, _. split; [unfold run; by rewrite E|]. split; [|done].
    simpl. rewrite app_nil_r.
    by apply (store_max_freq_trace Scaling_max_freq _ _ _ _ (or_intror Hls) Est).
  - destruct (decide (on = 0)) as [->|Hon].
    + destruct (set_interactive_off_spec g w (or_intror Hls))
        as (g1 & w0 & r1 & w1 & r2 & w2 & r3 & w3 & r4 & w4 & Est & E & H1 & H2 & H3 & H4).
      exists g1, w4. split; [unfold run; by rewrite E|]. split.
      * rewrite (write_effect_attempts _ _ _ _ _ H4), (write_effect_attempts _ _ _ _ _ H3),
          (write_effect_attempts _ _ _ _ _ H2), (write_effect_attempts _ _ _ _ _ H1).
        rewrite (store_max_freq_trace Scaling_max_freq _ _ _ _ (or_intror Hls) Est).
        by rewrite <- !app_assoc.
      * intros _. exists (trace w2), r3, r4.
        rewrite (write_effect_trace _ _ _ _ _ H4), (write_effect_trace _ _ _ _ _ H3).
        by rewrite <- app_assoc.
    + destruct (low_power_mode g) eqn:Hlp.
      * destruct (set_interactive_on_low_power_spec on g w Hon Hlp)
          as (w0 & r1 & w1 & r2 & w2 & Est & E & H1 & H2).
        exists g, w2. split; [unfold run; by rewrite E|]. split; [|intros [= ?]; done].
        rewrite (write_effect_attempts _ _ _ _ _ H2), (write_effect_attempts _ _ _ _ _ H1).
        rewrite (store_max_freq_trace Scaling_max_freq _ _ _ _ (or_introl Hlp) Est).
        simpl. rewrite decide_False by done. rewrite Hlp. by rewrite <- !app_assoc.
      * destruct (set_interactive_on_normal_spec on g w Hon Hlp)
          as (r1 & w1 & r2 & w2 & r3 & w3 & r4 & w4 & E & H1 & H2 & H3 & H4);
          [by eexists|].
        exists g, w4. split; [unfold run; by rewrite E|]. split; [|intros [= ?]; done].
        rewrite (write_effect_attempts _ _ _ _ _ H4), (write_effect_attempts _ _ _ _ _ H3),
          (write_effect_attempts _ _ _ _ _ H2), (write_effect_attempts _ _ _ _ _ H1).
        simpl. rewrite decide_False by done. rewrite Hlp. by rewrite <- !app_assoc.
  - destruct (decide (hint = POWER_HINT_LOW_POWER)) as [->|Hh].
    + destruct (decide (data = 0)) as [->|Hdata].
      * destruct (power_hint_disable_spec g w) as (r1 & w1 & r2 & w2 & E & H1 & H2);
          [by eexists|].
        eexists _, w2. split; [unfold run; by rewrite E|]. split; [|done].
        rewrite (write_effect_attempts _ _ _ _ _ H2), (write_effect_attempts _ _ _ _ _ H1).
        simpl. by rewrite <- !app_assoc.
      * destruct (power_hint_enable_spec data g w Hdata (or_intror Hln))
          as (g' & w0 & r1 & w1 & r2 & w2 & Est & E & H1 & H2).
        eexists _, w2. split; [unfold run; by rewrite E|]. split; [|done].
        rewrite (write_effect_attempts _ _ _ _ _ H2), (write_effect_attempts _ _ _ _ _ H1).
        rewrite (store_max_freq_trace Normal_max_freq _ _ _ _ (or_intror Hln) Est).
        simpl. rewrite decide_True by done. by rewrite <- !app_assoc.
    + destruct hint; try done; simpl; eexists _, _; (split; [done|]); simpl;
        by rewrite app_nil_r.
Qed.

Example screen_off_in_failing_world :
  (λ r, (fst <$> r, trace ∘ snd <$> r, files ∘ snd <$> r))
    (run (SetInteractive 0) initial_globals failing_world)
  = (Some initial_globals,
     Some [SysfsRead CPU0_SCALINGMAXFREQ_PATH 10 7;
           SysfsWrite CPU0_SCALINGMAXFREQ_PATH screen_off_max_freq (-1);
           SysfsWrite CPU1_SCALINGMAXFREQ_PATH screen_off_max_freq 0;
           SysfsWrite TOUCH_SUSPEND_PATH (literal "1") (-1);
           SysfsWrite MPU3050_SUSPEND_PATH (literal "1") 0],
     Some (<[ CPU0_SCALINGMAXFREQ_PATH := chars "1000000" ]>
          (<[ CPU1_SCALINGMAXFREQ_PATH := chars "456000" ]>
          (<[ MPU3050_SUSPEND_PATH := chars "1" ]> ∅)))).
Proof. vm_compute. reflexivity. Qed.

Lemma entry_points_isolate_failures_witness :
  well_formed initial_globals ∧ live_fits failing_world ∧
  ∃ g' w',
    run (SetInteractive 0) initial_globals failing_world = Some (g', w') ∧
    attempts (trace w') =
      attempts (trace failing_world) ++ planned_writes (SetInteractive 0) initial_globals ∧
    (SetInteractive 0 = SetInteractive 0 →
     ∃ tr r3 r4,
       trace w' = tr ++ [SysfsWrite TOUCH_SUSPEND_PATH (literal "1") r3;
                         SysfsWrite MPU3050_SUSPEND_PATH (literal "1") r4]).
Proof.
  assert (well_formed initial_globals) as Hwf.
  { split; (split; [reflexivity|by eexists]). }
  assert (live_fits failing_world) as Hfit by (vm_compute; lia).
  split; [exact Hwf|]. split; [exact Hfit|].
  apply (entry_points_isolate_failures (SetInteractive 0) initial_globals failing_world);
    [exact Hwf|exact Hfit].
Defined.

(** ** What [scaling_max_freq] can hold *)

Lemma store_max_freq_cases (t : target) (g g' : globals) (w w' : world) :
  sized g → store_max_freq t g w = Some (tt, g', w') →
  g' = g ∨
  (low_power_mode g = false ∧
   ∃ buf, live_reading w = Some buf ∧ take 6 buf ≠ chars "456000" ∧
          length buf = MAX_BUF_SZ ∧ g' = assign t buf g).
Proof.
  intros [Hs Hn] E.
  destruct (store_max_freq_spec t g w) as (len & buf & w0 & Er & E' & _ & _ & _ & _ & C & _).
  { right. by destruct t. }
  rewrite E in E'. simplify_eq. case_decide as Hst; [|by left].
  destruct Hst as (Hlen & Hp & Hlp). right. split; [done|]. exists buf.
  split; [|split; [done|split; [|done]]].
  - unfold live_reading. rewrite Er. by rewrite decide_True.
  - destruct C as [?|(d & _ & _ & ->)]; [done|]. apply length_zero_padded.
Qed.

Lemma do_sysfs_write_globals (path : string) s (g g' : globals) (w w' : world) a :
  do_sysfs_write path s g w = Some (a, g', w') → g' = g.
Proof.
  unfold do_sysfs_write, io. destruct (sysfs_write path s w) as [[? ?]|]; simpl; [|done].
  by intros [= _ <- _].
Qed.

(** One call: either [scaling_max_freq] is as before, or low-power mode
    was off at entry, the call is the initialisation or a screen-off, and
    the array now holds the reading of CPU0 in the world of that call,
    which does not begin with the screen-off frequency. *)
Lemma run_scaling (c : call) (g g' : globals) (w w' : world) :
  sized g → run c g w = Some (g', w') →
  sized g' ∧
  (scaling_max_freq g' = scaling_max_freq g ∨
   (low_power_mode g = false ∧ (c = Init ∨ c = SetInteractive 0) ∧
    live_reading w = Some (scaling_max_freq g') ∧
    take 6 (scaling_max_freq g') ≠ chars "456000")).
Proof.
  intros Hsz Hrun. pose proof Hsz as [Hs Hn].
  assert (∀ t g1 w1, store_max_freq t g w = Some (tt, g1, w1) →
    sized g1 ∧
    (scaling_max_freq g1 = scaling_max_freq g ∨
     (t = Scaling_max_freq ∧ low_power_mode g = false ∧
      live_reading w = Some (scaling_max_freq g1) ∧
      take 6 (scaling_max_freq g1) ≠ chars "456000"))) as Hstore.
  { intros t g1 w1 Est.
    destruct (store_max_freq_cases t g g1 w w1 Hsz Est)
      as [->|(Hlp & buf & Hr & Hp & Hb & ->)]; [split; [done|by left]|].
    destruct t; simpl.
    - split; [done|]. right. done.
    - split; [done|]. by left. }
  destruct c as [|on|hint data]; unfold run in Hrun.
  - unfold p3_power_init, bind, get_globals, libc, io in Hrun.
    destruct (store_max_freq Scaling_max_freq g w) as [[[[] g1] w1]|] eqn:Est;
      simpl in Hrun; [|done].
    destruct (strlen (scaling_max_freq g1)); simpl in Hrun; [|done].
    injection Hrun as <- _.
    destruct (Hstore _ _ _ Est) as [Hsz1 [?|(_ & ? & ? & ?)]]; [by split; [|left]|].
    split; [done|]. right. split; [done|]. split; [by left|done].
  - destruct (decide (on = 0)) as [->|Hon].
    + destruct (set_interactive_off_spec g w (or_intror Hs))
        as (g1 & w0 & r1 & w1 & r2 & w2 & r3 & w3 & r4 & w4 & Est & E & _).
      rewrite E in Hrun. simpl in Hrun. injection Hrun as <- _.
      destruct (Hstore _ _ _ Est) as [Hsz1 [?|(_ & ? & ? & ?)]]; [by split; [|left]|].
      split; [done|]. right. split; [done|]. split; [by right|done].
    + destruct (low_power_mode g) eqn:Hlp.
      * destruct (set_interactive_on_low_power_spec on g w Hon Hlp)
          as (w0 & r1 & w1 & r2 & w2 & _ & E & _).
        rewrite E in Hrun. simpl in Hrun. injection Hrun as <- _.
        split; [done|by left].
      * unfold p3_power_set_interactive, bind, get_globals in Hrun. simpl in Hrun.
        rewrite decide_False in Hrun by done. rewrite Hlp in Hrun.
        repeat match type of Hrun with
        | context [do_sysfs_write ?p ?s ?g0 ?w0] =>
            let E := fresh "E" in
            destruct (do_sysfs_write p s g0 w0) as [[[[] ?] ?]|] eqn:E;
            simpl in Hrun; [apply do_sysfs_write_globals in E; subst|done]
        end.
        injection Hrun as <- _. split; [done|by left].
  - destruct (decide (hint = POWER_HINT_LOW_POWER)) as [->|Hh].
    + destruct (decide (data = 0)) as [->|Hdata].
      * unfold p3_power_hint, bind, get_globals, put_globals in Hrun. simpl in Hrun.
        repeat match type of Hrun with
        | context [do_sysfs_write ?p ?s ?g0 ?w0] =>
            let E := fresh "E" in
            destruct (do_sysfs_write p s g0 w0) as [[[[] ?] ?]|] eqn:E;
            simpl in Hrun; [apply do_sysfs_write_globals in E; subst|done]
        end.
        injection Hrun as <- _. split; [done|by left].
      * destruct (power_hint_enable_spec data g w Hdata (or_intror Hn))
          as (g1 & w0 & r1 & w1 & r2 & w2 & Est & E & _).
        rewrite E in Hrun. simpl in Hrun. injection Hrun as <- _.
        destruct (Hstore _ _ _ Est) as [Hsz1 [?|(? & _)]]; [|done].
        split; [done|by left].
    + destruct hint; try done; simpl in Hrun; injection Hrun as <- _;
        (split; [done|by left]).
Qed.

Lemma run_steps_app (ss1 ss2 : list step) (g : globals) :
  run_steps (ss1 ++ ss2) g = run_steps ss1 g ≫= run_steps ss2.
Proof.
  revert g. induction ss1 as [|s ss1 IH]; intros g; simpl; [done|].
  destruct (run (step_call s) g (step_world s)) as [[g' w']|]; simpl; [apply IH|done].
Qed.

Lemma captured_normal_snoc (ss : list step) (s : step) (v : list ascii) :
  captured_normal ss v → captured_normal (ss ++ [s]) v.
Proof.
  intros (ss1 & s0 & ss2 & g1 & -> & ?). exists ss1, s0, (ss2 ++ [s]), g1.
  split; [|done]. by rewrite <- app_assoc.
Qed.

(** C2, as the code has it.  In every state reached from the initial one
    by calls of the entry points, each in an arbitrary world,
    [scaling_max_freq] never begins with [456000], which is both the
    screen-off frequency and [LOW_POWER_MAX_FREQ]; and it holds either
    its initial value or a reading of CPU0 taken by the initialisation or
    by a screen-off call that was entered with low-power mode off. *)
Theorem scaling_max_freq_invariant (ss : list step) (g : globals) :
  run_steps ss initial_globals = Some g →
  take 6 (scaling_max_freq g) ≠ chars "456000" ∧
  c_str (scaling_max_freq g) ≠ chars LOW_POWER_MAX_FREQ ∧
  (scaling_max_freq g = scaling_max_freq initial_globals ∨
   captured_normal ss (scaling_max_freq g)).
Proof.
  intros Hrun.
  cut (sized g ∧ take 6 (scaling_max_freq g) ≠ chars "456000" ∧
       (scaling_max_freq g = scaling_max_freq initial_globals ∨
        captured_normal ss (scaling_max_freq g))).
  { intros (_ & Hp & Hc). split; [done|]. split; [|done].
    intros Heq. apply Hp. unfold c_str in Heq.
    destruct (strlen (scaling_max_freq g)) as [n|] eqn:Hn.
    - assert (n = 6%nat) as ->.
      { apply (f_equal length) in Heq. rewrite length_take in Heq.
        apply strlen_Some in Hn as [Hlt _]. simpl in Heq. lia. }
      done.
    - by rewrite Heq. }
  revert g Hrun. induction ss as [|s ss IH] using rev_ind; intros g Hrun.
  - injection Hrun as <-. split; [by split|]. split; [compute_done|by left].
  - rewrite run_steps_app in Hrun.
    destruct (run_steps ss initial_globals) as [g1|] eqn:Hss; simpl in Hrun; [|done].
    destruct (run (step_call s) g1 (step_world s)) as [[g2 w2]|] eqn:Hs;
      simpl in Hrun; [|done].
    injection Hrun as ->.
    destruct (IH g1 eq_refl) as (Hsz & Hp & Hc).
    destruct (run_scaling _ _ _ _ _ Hsz Hs) as [Hsz' [Heq|(Hlp & Hcall & Hread & Hp')]].
    + split; [done|]. rewrite Heq. split; [done|].
      destruct Hc as [?|?]; [by left|right; by apply captured_normal_snoc].
    + split; [done|]. split; [done|]. right. by exists ss, s, [], g1.
Qed.

Lemma scaling_max_freq_invariant_witness :
  run_steps [Step (SetInteractive 0) test_world] initial_globals = Some initial_globals ∧
  take 6 (scaling_max_freq initial_globals) ≠ chars "456000" ∧
  c_str (scaling_max_freq initial_globals) ≠ chars LOW_POWER_MAX_FREQ ∧
  (scaling_max_freq initial_globals = scaling_max_freq initial_globals ∨
   captured_normal [Step (SetInteractive 0) test_world] (scaling_max_freq initial_globals)).
Proof.
  split; [vm_compute; reflexivity|].
  apply (scaling_max_freq_invariant [Step (SetInteractive 0) test_world] initial_globals).
  vm_compute; reflexivity.
Defined.

(** C2 as stated fails: after two screen-off calls in a row, the second
    made while CPU0 reads [150000], [scaling_max_freq] holds
    [LOW_POWER_MIN_FREQ], which is not its initial value and was read
    while the screen was off. *)
Lemma scaling_max_freq_captured_screen_off :
  ∃ g, run_steps repeated_screen_off initial_globals = Some g ∧
       c_str (scaling_max_freq g) = chars LOW_POWER_MIN_FREQ ∧
       scaling_max_freq g ≠ scaling_max_freq initial_globals ∧
       ¬ captured_interactive repeated_screen_off (scaling_max_freq g).
Proof.
  eexists. split; [vm_compute; reflexivity|]. split; [vm_compute; reflexivity|].
  split; [compute_done|].
  intros (ss1 & s & ss2 & g1 & Heq & Hrun & Hon & Hlp & Hcall & Hread).
  unfold repeated_screen_off in Heq.
  destruct ss1 as [|a [|b [|c ss1]]]; simplify_eq/=;
    first [ vm_compute in Hread; discriminate
          | vm_compute in Hon; discriminate
          | by destruct ss1 ].
Qed.

(** ** The buffer after [sysfs_read] *)

(** X1.  After a read of [len] bytes every byte from [len] up to [size] is
    NUL, the bytes before are those of the attribute, and the buffer holds
    a terminated string as soon as [len < size]. *)
Lemma sysfs_read_zero_pads (path : string) (buf : list ascii) (size : nat) (w : world)
    (len : Z) (buf' : list ascii) (w' : world) :
  (size ≤ length buf)%nat →
  sysfs_read path buf size w = Some (len, buf', w') → len ≠ -1 →
  0 ≤ len ≤ Z.of_nat size ∧ length buf' = length buf ∧
  (∃ d, files w !! path = Some d ∧ take (Z.to_nat len) buf' = take size d) ∧
  (∀ i, (Z.to_nat len ≤ i < size)%nat → buf' !! i = Some NUL) ∧
  (len < Z.of_nat size → ∃ n, strlen buf' = Some n ∧ (n ≤ Z.to_nat len)%nat).
Proof.
  intros Hsize E Hlen.
  destruct (sysfs_read_spec path buf size w Hsize)
    as (len' & b & w0 & E' & _ & _ & _ & _ & C & _).
  rewrite E in E'. simplify_eq.
  destruct C as [[? _]|(d & Hd & -> & ->)]; [done|].
  rewrite Nat2Z.id.
  assert (length (take size d) = size `min` length d)%nat as Hk by apply length_take.
  assert (length (zero_padded d size) = size) as Hz by apply length_zero_padded.
  assert (∀ i, (length (take size d) ≤ i < size)%nat →
               (zero_padded d size ++ drop size buf) !! i = Some NUL) as Hpad.
  { intros i Hi. rewrite lookup_app_l by lia. unfold zero_padded.
    rewrite lookup_app_r by lia. apply lookup_replicate_2. lia. }
  split; [lia|]. split; [rewrite length_app, length_drop; lia|].
  split; [|split; [done|]].
  - exists d. split; [done|]. unfold zero_padded. rewrite <- app_assoc.
    by rewrite take_app_length.
  - intros Hlt.
    destruct (strlen (zero_padded d size ++ drop size buf)) as [n|] eqn:Hn.
    + exists n. split; [done|]. apply strlen_Some in Hn as (_ & _ & Hnot).
      destruct (decide (n ≤ length (take size d))%nat) as [|Hgt]; [done|].
      exfalso. apply Hnot. apply list_elem_of_lookup.
      exists (length (take size d)). rewrite lookup_take_lt by lia.
      apply Hpad. lia.
    + apply strlen_None in Hn. exfalso. apply Hn. apply list_elem_of_lookup.
      exists (length (take size d)). apply Hpad. lia.
Qed.

(** C8, at the input where the code departs from it.  A read that fills
    the buffer ([len == size]) skips the [memset]: the ten bytes read are
    left without any NUL, [strlen] on them is undefined, and so are the
    [%s] of the initialisation and the write-back of a stored value. *)
Theorem sysfs_read_full_buffer_unterminated :
  sysfs_read CPU0_SCALINGMAXFREQ_PATH (replicate MAX_BUF_SZ NUL) MAX_BUF_SZ long_world
  = Some (10, chars "1000000000",
          record_event (SysfsRead CPU0_SCALINGMAXFREQ_PATH MAX_BUF_SZ 10) long_world) ∧
  (NUL ∉ chars "1000000000") ∧
  strlen (chars "1000000000") = None ∧
  run Init initial_globals long_world = None ∧
  run_all [SetInteractive 0; SetInteractive 1] initial_globals long_world = None.
Proof.
  split; [vm_compute; reflexivity|]. split; [compute_done|].
  split; [reflexivity|]. split; vm_compute; reflexivity.
Qed.

(** ** Well-formed states stay well-formed *)

Lemma initial_globals_well_formed : well_formed initial_globals.
Proof. split; (split; [reflexivity|by eexists]). Qed.

(** As long as the value of CPU0 fits the buffer, every entry point takes
    a well-formed state to a well-formed state. *)
Lemma run_well_formed (c : call) (g g' : globals) (w w' : world) :
  well_formed g → live_fits w → run c g w = Some (g', w') → well_formed g'.
Proof.
  intros Hwf Hfit Hrun. pose proof Hwf as [[Hls _] [Hln _]].
  assert (sized g) as Hsz by done.
  assert (∀ t g1 w1, store_max_freq t g w = Some (tt, g1, w1) → well_formed g1) as Hstore.
  { intros t g1 w1. by apply store_max_freq_well_formed. }
  destruct c as [|on|hint data]; unfold run in Hrun.
  - unfold p3_power_init, bind, get_globals, libc, io in Hrun.
    destruct (store_max_freq Scaling_max_freq g w) as [[[[] g1] w1]|] eqn:Est;
      simpl in Hrun; [|done].
    destruct (strlen (scaling_max_freq g1)); simpl in Hrun; [|done].
    injection Hrun as <- _. by eapply Hstore.
  - destruct (decide (on = 0)) as [->|Hon].
    + destruct (set_interactive_off_spec g w (or_intror Hls))
        as (g1 & w0 & r1 & w1 & r2 & w2 & r3 & w3 & r4 & w4 & Est & E & _).
      rewrite E in Hrun. simpl in Hrun. injection Hrun as <- _. by eapply Hstore.
    + destruct (low_power_mode g) eqn:Hlp.
      * destruct (set_interactive_on_low_power_spec on g w Hon Hlp)
          as (w0 & r1 & w1 & r2 & w2 & _ & E & _).
        rewrite E in Hrun. simpl in Hrun. by injection Hrun as <- _.
      * pose proof Hwf as [[_ Hterm] _].
        destruct (set_interactive_on_normal_spec on g w Hon Hlp Hterm)
          as (r1 & w1 & r2 & w2 & r3 & w3 & r4 & w4 & E & _).
        rewrite E in Hrun. simpl in Hrun. by injection Hrun as <- _.
  - destruct (decide (hint = POWER_HINT_LOW_POWER)) as [->|Hh].
    + destruct (decide (data = 0)) as [->|Hdata].
      * pose proof Hwf as [_ [_ Hterm]].
        destruct (power_hint_disable_spec g w Hterm) as (r1 & w1 & r2 & w2 & E & _).
        rewrite E in Hrun. simpl in Hrun. by injection Hrun as <- _.
      * destruct (power_hint_enable_spec data g w Hdata (or_intror Hln))
          as (g1 & w0 & r1 & w1 & r2 & w2 & Est & E & _).
        rewrite E in Hrun. simpl in Hrun. injection Hrun as <- _.
        by apply (Hstore _ _ _ Est).
    + destruct hint; try done; simpl in Hrun; by injection Hrun as <- _.
Qed.

(** ** The guard of the capture, case by case *)

(** A reading that differs from the screen-off frequency is stored, with
    the newline the kernel prints after it. *)
Example capture_stores_760000 :
  fst <$> store_max_freq Scaling_max_freq initial_globals
            (world_reading ("760000" ++ newline))
  = Some (tt, Globals (char_array MAX_BUF_SZ ("760000" ++ newline))
                      (char_array MAX_BUF_SZ "1000000") false).
Proof. vm_compute. reflexivity. Qed.

(** The screen-off frequency is turned down, with or without newline. *)
Example capture_rejects_456000 :
  fst <$> store_max_freq Scaling_max_freq initial_globals
            (world_reading ("456000" ++ newline))
  = Some (tt, initial_globals).
Proof. vm_compute. reflexivity. Qed.

(** So is any reading in low-power mode. *)
Example capture_rejects_in_low_power :
  fst <$> store_max_freq Scaling_max_freq (set_low_power_mode true initial_globals)
            (world_reading "760000")
  = Some (tt, set_low_power_mode true initial_globals).
Proof. vm_compute. reflexivity. Qed.

(** And so is a read that fails: here no attribute exists. *)
Example capture_rejects_failed_read :
  store_max_freq Scaling_max_freq initial_globals (World ∅ [] [] [])
  = Some (tt, initial_globals,
          record_event (SysfsRead CPU0_SCALINGMAXFREQ_PATH MAX_BUF_SZ (-1))
            (World ∅ [] [] [])).
Proof. vm_compute. reflexivity. Qed.

(** ** The two scenarios of the policy *)

(** Screen off, then screen on, from the initial state with every
    attribute present and CPU0 at [1000000]. *)
Example scenario_screen_off_on :
  (λ r, (fst <$> r, files ∘ snd <$> r))
    (run (SetInteractive 0) initial_globals test_world)
  = (Some initial_globals,
     Some (<[ CPU0_SCALINGMAXFREQ_PATH := chars "456000" ]>
          (<[ CPU1_SCALINGMAXFREQ_PATH := chars "456000" ]>
          (<[ TOUCH_SUSPEND_PATH := chars "1" ]>
          (<[ MPU3050_SUSPEND_PATH := chars "1" ]> ∅))))) ∧
  (λ r, (fst <$> r, files ∘ snd <$> r))
    (run_all [SetInteractive 0; SetInteractive 1] initial_globals test_world)
  = (Some initial_globals, Some (files test_world)).
Proof. split; vm_compute; reflexivity. Qed.

(** The low-power hint, then screen off and on while the flag stays set:
    the CPUs are back at the low-power maximum and the peripherals are
    still suspended. *)
Example scenario_low_power :
  (λ r, (fst <$> r, files ∘ snd <$> r))
    (run_all [PowerHint POWER_HINT_LOW_POWER 1; SetInteractive 0; SetInteractive 1]
       initial_globals test_world)
  = (Some (set_low_power_mode true initial_globals),
     Some (<[ CPU0_SCALINGMAXFREQ_PATH := chars "456000" ]>
          (<[ CPU1_SCALINGMAXFREQ_PATH := chars "456000" ]>
          (<[ TOUCH_SUSPEND_PATH := chars "1" ]>
          (<[ MPU3050_SUSPEND_PATH := chars "1" ]> ∅))))).
Proof. vm_compute. reflexivity. Qed.

(** * Further properties of the code *)

(** ** Helpers *)

Lemma strlen_app_NUL (l r : list ascii) :
  NUL ∉ l → strlen (l ++ NUL :: r) = Some (length l).
Proof.
  induction l as [|c l IH]; intros Hl.
  - reflexivity.
  - apply not_elem_of_cons in Hl as [Hc Hl].
    change (strlen ((c :: l) ++ NUL :: r))
      with (if decide (c = NUL) then Some 0%nat else S <$> strlen (l ++ NUL :: r)).
    rewrite decide_False by congruence. by rewrite IH.
Qed.

Lemma read_retry_EINTR (d : list ascii) (size k : nat) (rest : list (option errno)) :
  read_retry d size (replicate k (Some EINTR) ++ rest) = read_retry d size rest.
Proof. induction k as [|k IH]; simpl; [done|]. by rewrite ?decide_True. Qed.

(** What a capture can do to the state, with no assumption on it. *)
Lemma store_max_freq_inv (t : target) (g g' : globals) (w w' : world) (u : unit) :
  store_max_freq t g w = Some (u, g', w') →
  (g' = g ∨ (low_power_mode g = false ∧ ∃ v, g' = assign t v g)) ∧
  files w' = files w ∧ logcat w' = logcat w.
Proof.
  unfold store_max_freq, store_max_freq_with, bind, io, libc, get_globals, put_globals, ret.
  destruct (sysfs_read_spec CPU0_SCALINGMAXFREQ_PATH (replicate MAX_BUF_SZ NUL) MAX_BUF_SZ w)
    as (len & buf & w1 & E & Hf & Hl & _); [by rewrite length_replicate|].
  rewrite E. simpl.
  destruct (decide (len ≠ -1)); simpl; [|intros [= _ <- <-]; by split; [left|]].
  rewrite ?strlen_screen_off. simpl.
  destruct (strncmp buf screen_off_max_freq 6) as [c|]; simpl; [|done].
  destruct (decide (c ≠ 0)); simpl; [|intros [= _ <- <-]; by split; [left|]].
  destruct (low_power_mode g) eqn:Hlp; simpl; [intros [= _ <- <-]; by split; [left|]|].
  destruct (memcpy (deref t g) buf MAX_BUF_SZ) as [v|]; simpl; [|done].
  intros [= _ <- <-]. split; [|done]. right. split; [done|]. by exists v.
Qed.

Ltac invert_calls Hrun :=
  repeat match type of Hrun with
  | context [store_max_freq ?t ?g0 ?w0] =>
      let E := fresh "Est" in
      destruct (store_max_freq t g0 w0) as [[[[] ?] ?]|] eqn:E;
      simpl in Hrun; [apply store_max_freq_inv in E|done]
  | context [do_sysfs_write ?p ?s ?g0 ?w0] =>
      let E := fresh "E" in
      destruct (do_sysfs_write p s g0 w0) as [[[[] ?] ?]|] eqn:E;
      simpl in Hrun; [apply do_sysfs_write_globals in E; subst|done]
  end.

(** What one call can do to the state, with no assumption on it. *)
Lemma run_inv (c : call) (g g' : globals) (w w' : world) :
  run c g w = Some (g', w') →
  match c with
  | Init | SetInteractive _ =>
      g' = g ∨
      (low_power_mode g = false ∧ (c = Init ∨ c = SetInteractive 0) ∧
       ∃ v, g' = assign Scaling_max_freq v g)
  | PowerHint POWER_HINT_LOW_POWER data =>
      if decide (data ≠ 0)
      then g' = set_low_power_mode true g ∨
           (low_power_mode g = false ∧
            ∃ v, g' = set_low_power_mode true (assign Normal_max_freq v g))
      else g' = set_low_power_mode false g
  | PowerHint _ _ => g' = g
  end.
Proof.
  intros Hrun. unfold run in Hrun. destruct c as [|on|hint data].
  - unfold p3_power_init, bind, get_globals, libc, io in Hrun.
    invert_calls Hrun.
    match type of Hrun with
    | context [strlen ?x] => destruct (strlen x); simpl in Hrun; [|done]
    end.
    injection Hrun as <- _.
    destruct Est as [[->|(Hlp & v & ->)] _]; [by left|].
    right. split; [done|]. split; [by left|by exists v].
  - unfold p3_power_set_interactive, bind, get_globals in Hrun. simpl in Hrun.
    destruct (decide (on = 0)) as [->|Hon].
    + invert_calls Hrun. injection Hrun as <- _.
      destruct Est as [[->|(Hlp & v & ->)] _]; [by left|].
      right. split; [done|]. split; [by right|by exists v].
    + destruct (low_power_mode g) eqn:Hlp.
      * invert_calls Hrun. injection Hrun as <- _.
        destruct Est as [[->|(Hlp' & _)] _]; [by left|congruence].
      * invert_calls Hrun. injection Hrun as <- _. by left.
  - destruct hint; simpl in Hrun; try (by injection Hrun as <- _).
    unfold bind, get_globals, put_globals in Hrun.
    destruct (decide (data ≠ 0)).
    + invert_calls Hrun. injection Hrun as <- _.
      destruct Est as [[->|(Hlp & v & ->)] _]; [by left|].
      right. split; [done|]. by exists v.
    + simpl in Hrun. invert_calls Hrun. by injection Hrun as <- _.
Qed.

(** ** SysfsAccessor: bounds, failures, retries *)

Lemma sysfs_read_zero_pads_witness :
  (MAX_BUF_SZ ≤ length (replicate MAX_BUF_SZ NUL))%nat ∧
  sysfs_read CPU0_SCALINGMAXFREQ_PATH (replicate MAX_BUF_SZ NUL) MAX_BUF_SZ test_world
  = Some (7, char_array MAX_BUF_SZ "1000000",
          record_event (SysfsRead CPU0_SCALINGMAXFREQ_PATH MAX_BUF_SZ 7) test_world) ∧
  7 ≠ -1 ∧
  0 ≤ 7 ≤ Z.of_nat MAX_BUF_SZ ∧
  length (char_array MAX_BUF_SZ "1000000") = length (replicate MAX_BUF_SZ NUL) ∧
  (∃ d, files test_world !! CPU0_SCALINGMAXFREQ_PATH = Some d ∧
        take (Z.to_nat 7) (char_array MAX_BUF_SZ "1000000") = take MAX_BUF_SZ d) ∧
  (∀ i, (Z.to_nat 7 ≤ i < MAX_BUF_SZ)%nat →
        char_array MAX_BUF_SZ "1000000" !! i = Some NUL) ∧
  (7 < Z.of_nat MAX_BUF_SZ →
   ∃ n, strlen (char_array MAX_BUF_SZ "1000000") = Some n ∧ (n ≤ Z.to_nat 7)%nat).
Proof.
  assert ((MAX_BUF_SZ ≤ length (replicate MAX_BUF_SZ NUL))%nat) as H1
    by (vm_compute; lia).
  assert (sysfs_read CPU0_SCALINGMAXFREQ_PATH (replicate MAX_BUF_SZ NUL) MAX_BUF_SZ
            test_world
          = Some (7, char_array MAX_BUF_SZ "1000000",
                  record_event (SysfsRead CPU0_SCALINGMAXFREQ_PATH MAX_BUF_SZ 7)
                    test_world)) as H2 by (vm_compute; reflexivity).
  assert (7 ≠ -1) as H3 by lia.
  split; [exact H1|]. split; [exact H2|]. split; [exact H3|].
  exact (sysfs_read_zero_pads _ _ _ _ _ _ _ H1 H2 H3).
Defined.

(** X2.  Given a buffer with room for [size] bytes, [sysfs_read] is defined,
    changes no attribute and logs nothing, keeps the length of the buffer
    and every byte from index [size] on, and after a failure leaves the
    whole buffer as it was; it returns -1 or a count up to [size]. *)
Theorem sysfs_read_stays_in_bounds (path : string) (buf : list ascii) (size : nat)
    (w : world) :
  (size ≤ length buf)%nat →
  ∃ len buf' w',
    sysfs_read path buf size w = Some (len, buf', w') ∧
    files w' = files w ∧ logcat w' = logcat w ∧
    length buf' = length buf ∧ drop size buf' = drop size buf ∧
    (len = -1 → buf' = buf) ∧ -1 ≤ len ≤ Z.of_nat size.
Proof.
  intros Hsize.
  destruct (sysfs_read_spec path buf size w Hsize)
    as (len & buf' & w' & E & Hf & Hl & _ & _ & C & _).
  exists len, buf', w'. do 3 (split; [done|]).
  destruct C as [[-> ->]|(d & Hd & -> & ->)].
  - do 3 (split; [done|]). lia.
  - pose proof (length_zero_padded d size) as Hz.
    split; [rewrite length_app, length_drop; lia|].
    split; [by rewrite drop_app_length'|].
    split; [lia|]. rewrite length_take. lia.
Qed.

Lemma sysfs_read_stays_in_bounds_witness :
  (3 ≤ length (chars "abcdef"))%nat ∧
  ∃ len buf' w',
    sysfs_read CPU0_SCALINGMAXFREQ_PATH (chars "abcdef") 3 test_world
    = Some (len, buf', w') ∧
    files w' = files test_world ∧ logcat w' = logcat test_world ∧
    length buf' = length (chars "abcdef") ∧ drop 3 buf' = drop 3 (chars "abcdef") ∧
    (len = -1 → buf' = chars "abcdef") ∧ -1 ≤ len ≤ Z.of_nat 3.
Proof.
  split; [vm_compute; lia|].
  apply (sysfs_read_stays_in_bounds CPU0_SCALINGMAXFREQ_PATH (chars "abcdef") 3 test_world).
  vm_compute; lia.
Defined.

(** X3.  On a path that does not exist [sysfs_read] returns -1, leaves the
    buffer alone whatever its size, and logs nothing. *)
Theorem sysfs_read_missing_attribute (path : string) (buf : list ascii) (size : nat)
    (w : world) :
  files w !! path = None →
  ∃ w', sysfs_read path buf size w = Some (-1, buf, w') ∧
        files w' = files w ∧ logcat w' = logcat w ∧
        trace w' = trace w ++ [SysfsRead path size (-1)].
Proof.
  intros Hnone. unfold sysfs_read.
  destruct (sys_open_spec path w) as (Hf & Ht & Hl & _ & Hfd).
  destruct (sys_open path w) as [[e|fd] w1]; simpl in *.
  - eexists. split; [done|]. simpl. by rewrite Hf, Hl, Ht.
  - destruct (Hfd fd eq_refl) as [_ [d Hd]]. congruence.
Qed.

Lemma sysfs_read_missing_attribute_witness :
  files test_world !! "/sys/none" = None ∧
  ∃ w', sysfs_read "/sys/none" [] 10 test_world = Some (-1, [], w') ∧
        files w' = files test_world ∧ logcat w' = logcat test_world ∧
        trace w' = trace test_world ++ [SysfsRead "/sys/none" 10 (-1)].
Proof.
  split; [reflexivity|].
  apply (sysfs_read_missing_attribute "/sys/none" [] 10 test_world). reflexivity.
Defined.

(** X4.  Interrupted reads are retried: any number of [EINTR] results before
    the read that counts changes neither the value returned nor the buffer
    nor the world that is left. *)
Theorem sysfs_read_retries_EINTR (path : string) (buf : list ascii) (size k : nat)
    (w : world) (rest : list (option errno)) :
  is_Some (files w !! path) →
  script w = None :: replicate k (Some EINTR) ++ rest →
  sysfs_read path buf size w
  = sysfs_read path buf size (with_script (None :: rest) w).
Proof.
  intros [d Hd] Hsc. unfold sysfs_read, sys_open, inject.
  rewrite Hsc. simpl. rewrite Hd. simpl. by rewrite read_retry_EINTR.
Qed.

Lemma sysfs_read_retries_EINTR_witness :
  is_Some (files interrupted_world !! CPU0_SCALINGMAXFREQ_PATH) ∧
  script interrupted_world = None :: replicate 2 (Some EINTR) ++ [None; Some EIO] ∧
  sysfs_read CPU0_SCALINGMAXFREQ_PATH (replicate MAX_BUF_SZ NUL) MAX_BUF_SZ
    interrupted_world
  = sysfs_read CPU0_SCALINGMAXFREQ_PATH (replicate MAX_BUF_SZ NUL) MAX_BUF_SZ
      (with_script (None :: [None; Some EIO]) interrupted_world).
Proof.
  assert (is_Some (files interrupted_world !! CPU0_SCALINGMAXFREQ_PATH)) as H1
    by (by eexists).
  split; [exact H1|]. split; [reflexivity|].
  apply (sysfs_read_retries_EINTR CPU0_SCALINGMAXFREQ_PATH (replicate MAX_BUF_SZ NUL)
           MAX_BUF_SZ 2 interrupted_world [None; Some EIO] H1).
  reflexivity.
Defined.



(** The interrupted write at work: -1, the attribute as before, the
    served outcome still in the script. *)
Example sysfs_write_interrupted :
  (λ r, (fst <$> r, script ∘ snd <$> r, files ∘ snd <$> r, logcat ∘ snd <$> r))
    (sysfs_write TOUCH_SUSPEND_PATH (literal "1") interrupted_write_world)
  = (Some (-1), Some [None], Some (files interrupted_write_world),
     Some [ALOGE_writing TOUCH_SUSPEND_PATH EINTR]).
Proof. vm_compute. reflexivity. Qed.

(** X6.  On a path that does not exist [sysfs_write] returns -1 before it
    looks at the string, which may be any array; no attribute is created
    and the failed open is logged. *)
Theorem sysfs_write_missing_attribute (path : string) (s : list ascii) (w : world) :
  files w !! path = None →
  ∃ e w', sysfs_write path s w = Some (-1, w') ∧
          files w' = files w ∧
          logcat w' = logcat w ++ [ALOGE_opening path e] ∧
          trace w' = trace w ++ [SysfsWrite path s (-1)].
Proof.
  intros Hnone. unfold sysfs_write.
  destruct (sys_open_spec path w) as (Hf & Ht & Hl & _ & Hfd).
  destruct (sys_open path w) as [[e|fd] w1]; simpl in *.
  - eexists e, _. split; [done|]. simpl. by rewrite Hf, Hl, Ht.
  - destruct (Hfd fd eq_refl) as [_ [d Hd]]. congruence.
Qed.

Lemma sysfs_write_missing_attribute_witness :
  files failing_world !! TOUCH_SUSPEND_PATH = None ∧
  ∃ e w', sysfs_write TOUCH_SUSPEND_PATH (chars "1") failing_world = Some (-1, w') ∧
          files w' = files failing_world ∧
          logcat w' = logcat failing_world ++ [ALOGE_opening TOUCH_SUSPEND_PATH e] ∧
          trace w' = trace failing_world ++ [SysfsWrite TOUCH_SUSPEND_PATH (chars "1") (-1)].
Proof.
  split; [reflexivity|].
  apply (sysfs_write_missing_attribute TOUCH_SUSPEND_PATH (chars "1") failing_world).
  reflexivity.
Defined.

(** X7.  Round trip: in a world that serves the calls, what [sysfs_write]
    stored in an attribute is what [sysfs_read] gives back, zero-padded,
    as long as the string is shorter than the read size; the buffer then
    holds the same string. *)
Theorem sysfs_write_read_round_trip (path : string) (s buf : list ascii) (size n : nat)
    (w : world) :
  strlen s = Some n → (n < size)%nat → (size ≤ length buf)%nat →
  script w = [] → is_Some (files w !! path) →
  ∃ w1 w2 buf',
    sysfs_write path s w = Some (0, w1) ∧
    sysfs_read path buf size w1 = Some (Z.of_nat n, buf', w2) ∧
    buf' = take n s ++ replicate (size - n) NUL ++ drop size buf ∧
    strlen buf' = Some n ∧ take n buf' = take n s.
Proof.
  intros Hn Hlt Hsize Hsc Hex.
  destruct (strlen_Some s n Hn) as (Hns & _ & Hnot).
  destruct (sysfs_write_spec path s w) as (ret & w1 & Ew & _ & Hsc1 & C & Hok);
    [by eexists|].
  pose proof (Hok Hsc Hex) as ->.
  destruct C as [(_ & m & Hm & _ & Hf1 & _)|[? _]]; [|done].
  assert (m = n) as -> by congruence.
  destruct (sysfs_read_spec path buf size w1 Hsize)
    as (len & buf' & w2 & Er & _ & _ & _ & _ & C & Hne).
  assert (files w1 !! path = Some (take n s)) as Hd
    by (rewrite Hf1; apply lookup_insert_eq).
  assert (len ≠ -1) as Hlen by (apply Hne; [by apply Hsc1|by eexists]).
  destruct C as [[? _]|(d & Hd' & -> & ->)]; [done|].
  assert (d = take n s) as -> by congruence.
  assert (length (take n s) = n) as Hk by (rewrite length_take; lia).
  assert (zero_padded (take n s) size = take n s ++ replicate (size - n) NUL) as Hz.
  { unfold zero_padded. rewrite Hk. f_equal. rewrite take_ge; [done|lia]. }
  exists w1, w2, (zero_padded (take n s) size ++ drop size buf).
  split; [done|]. split.
  { rewrite Er. do 3 f_equal. rewrite take_ge by lia. by rewrite Hk. }
  rewrite Hz, <- app_assoc. split; [done|]. split.
  - destruct (size - n)%nat as [|j] eqn:Hj; [lia|]. simpl.
    rewrite strlen_app_NUL by done. by rewrite Hk.
  - rewrite take_app_le by lia. rewrite take_ge; [done|lia].
Qed.

Lemma sysfs_write_read_round_trip_witness :
  strlen (char_array MAX_BUF_SZ "760000") = Some 6%nat ∧ (6 < MAX_BUF_SZ)%nat ∧
  (MAX_BUF_SZ ≤ length (replicate MAX_BUF_SZ NUL))%nat ∧
  script test_world = [] ∧ is_Some (files test_world !! CPU0_SCALINGMAXFREQ_PATH) ∧
  ∃ w1 w2 buf',
    sysfs_write CPU0_SCALINGMAXFREQ_PATH (char_array MAX_BUF_SZ "760000") test_world
    = Some (0, w1) ∧
    sysfs_read CPU0_SCALINGMAXFREQ_PATH (replicate MAX_BUF_SZ NUL) MAX_BUF_SZ w1
    = Some (Z.of_nat 6, buf', w2) ∧
    buf' = take 6 (char_array MAX_BUF_SZ "760000") ++ replicate (MAX_BUF_SZ - 6) NUL ++
           drop MAX_BUF_SZ (replicate MAX_BUF_SZ NUL) ∧
    strlen buf' = Some 6%nat ∧ take 6 buf' = take 6 (char_array MAX_BUF_SZ "760000").
Proof.
  assert (is_Some (files test_world !! CPU0_SCALINGMAXFREQ_PATH)) as Hex by (by eexists).
  split; [reflexivity|]. split; [vm_compute; lia|]. split; [vm_compute; lia|].
  split; [reflexivity|]. split; [exact Hex|].
  apply (sysfs_write_read_round_trip CPU0_SCALINGMAXFREQ_PATH
           (char_array MAX_BUF_SZ "760000") (replicate MAX_BUF_SZ NUL) MAX_BUF_SZ 6
           test_world);
    [reflexivity|vm_compute; lia|vm_compute; lia|reflexivity|exact Hex].
Defined.

(** ** PowerPolicy: the branches of the entry points *)

(** X9.  Screen on in low-power mode: the state is as before, the trace gains
    the read of the capture and the two writes of [LOW_POWER_MAX_FREQ],
    and the two suspend attributes are not touched; when the world serves
    the calls both CPU attributes hold [456000]. *)
Theorem screen_on_in_low_power (on : Z) (g : globals) (w : world) :
  on ≠ 0 → low_power_mode g = true →
  ∃ w' len r1 r2,
    run (SetInteractive on) g w = Some (g, w') ∧
    trace w' = trace w ++
      [SysfsRead CPU0_SCALINGMAXFREQ_PATH MAX_BUF_SZ len;
       SysfsWrite CPU0_SCALINGMAXFREQ_PATH (literal LOW_POWER_MAX_FREQ) r1;
       SysfsWrite CPU1_SCALINGMAXFREQ_PATH (literal LOW_POWER_MAX_FREQ) r2] ∧
    files w' !! TOUCH_SUSPEND_PATH = files w !! TOUCH_SUSPEND_PATH ∧
    files w' !! MPU3050_SUSPEND_PATH = files w !! MPU3050_SUSPEND_PATH ∧
    (serving w →
     files w' !! CPU0_SCALINGMAXFREQ_PATH = Some (chars "456000") ∧
     files w' !! CPU1_SCALINGMAXFREQ_PATH = Some (chars "456000")).
Proof.
  intros Hon Hlp.
  destruct (set_interactive_on_low_power_spec on g w Hon Hlp)
    as (w0 & r1 & w1 & r2 & w2 & Est & E & H1 & H2).
  destruct (store_max_freq_spec Scaling_max_freq g w (or_introl Hlp))
    as (len & buf & w0' & _ & Est' & Hf0 & _ & Ht0 & _).
  rewrite Est in Est'. injection Est' as _ <-.
  destruct paths_distinct as (D01 & D02 & D03 & D12 & D13 & D23).
  exists w2, len, r1, r2. split; [unfold run; by rewrite E|]. split; [|split; [|split]].
  - rewrite (write_effect_trace _ _ _ _ _ H2), (write_effect_trace _ _ _ _ _ H1), Ht0.
    by rewrite <- !app_assoc.
  - rewrite (write_effect_lookup_ne _ _ _ _ _ _ H2) by done.
    rewrite (write_effect_lookup_ne _ _ _ _ _ _ H1) by done. by rewrite Hf0.
  - rewrite (write_effect_lookup_ne _ _ _ _ _ _ H2) by done.
    rewrite (write_effect_lookup_ne _ _ _ _ _ _ H1) by done. by rewrite Hf0.
  - intros Hserv.
    pose proof (serving_after_store Scaling_max_freq _ _ _ _ (or_introl Hlp) Est Hserv)
      as Hserv0.
    pose proof (serving_after_write _ _ _ _ _ H1 Hserv0) as Hserv1.
    destruct Hserv0 as (Hsc0 & A0 & A1). destruct Hserv1 as (Hsc1 & B0 & B1).
    destruct (write_effect_served _ _ _ _ _ 6%nat H1) as (_ & F0 & _); [done..|].
    destruct (write_effect_served _ _ _ _ _ 6%nat H2) as (_ & F1 & _); [done..|].
    split; [|done]. by rewrite (write_effect_lookup_ne _ _ _ _ _ _ H2) by done.
Qed.

Lemma screen_on_in_low_power_witness :
  1 ≠ 0 ∧ low_power_mode (set_low_power_mode true initial_globals) = true ∧
  ∃ w' len r1 r2,
    run (SetInteractive 1) (set_low_power_mode true initial_globals) test_world
    = Some (set_low_power_mode true initial_globals, w') ∧
    trace w' = trace test_world ++
      [SysfsRead CPU0_SCALINGMAXFREQ_PATH MAX_BUF_SZ len;
       SysfsWrite CPU0_SCALINGMAXFREQ_PATH (literal LOW_POWER_MAX_FREQ) r1;
       SysfsWrite CPU1_SCALINGMAXFREQ_PATH (literal LOW_POWER_MAX_FREQ) r2] ∧
    files w' !! TOUCH_SUSPEND_PATH = files test_world !! TOUCH_SUSPEND_PATH ∧
    files w' !! MPU3050_SUSPEND_PATH = files test_world !! MPU3050_SUSPEND_PATH ∧
    (serving test_world →
     files w' !! CPU0_SCALINGMAXFREQ_PATH = Some (chars "456000") ∧
     files w' !! CPU1_SCALINGMAXFREQ_PATH = Some (chars "456000")).
Proof.
  split; [lia|]. split; [reflexivity|].
  apply (screen_on_in_low_power 1 (set_low_power_mode true initial_globals) test_world);
    [lia|reflexivity].
Defined.

(** X10.  Screen on outside low-power mode: no read is made and the state is
    as before; the four writes are the remembered frequency on CPU0 and
    CPU1, then ["0"] on the touch and the motion-sensor suspend
    attributes; when nothing fails the attributes hold exactly that. *)
Theorem screen_on_resumes (on : Z) (g : globals) (w : world) (n : nat) :
  on ≠ 0 → low_power_mode g = false → strlen (scaling_max_freq g) = Some n →
  ∃ w' r1 r2 r3 r4,
    run (SetInteractive on) g w = Some (g, w') ∧
    trace w' = trace w ++
      [SysfsWrite CPU0_SCALINGMAXFREQ_PATH (scaling_max_freq g) r1;
       SysfsWrite CPU1_SCALINGMAXFREQ_PATH (scaling_max_freq g) r2;
       SysfsWrite TOUCH_SUSPEND_PATH (literal "0") r3;
       SysfsWrite MPU3050_SUSPEND_PATH (literal "0") r4] ∧
    (script w = [] → all_attributes w →
     files w' =
       <[MPU3050_SUSPEND_PATH := chars "0"]>
       (<[TOUCH_SUSPEND_PATH := chars "0"]>
       (<[CPU1_SCALINGMAXFREQ_PATH := take n (scaling_max_freq g)]>
       (<[CPU0_SCALINGMAXFREQ_PATH := take n (scaling_max_freq g)]> (files w))))).
Proof.
  intros Hon Hlp Hn.
  destruct (set_interactive_on_normal_spec on g w Hon Hlp)
    as (r1 & w1 & r2 & w2 & r3 & w3 & r4 & w4 & E & H1 & H2 & H3 & H4); [by eexists|].
  exists w4, r1, r2, r3, r4. split; [unfold run; by rewrite E|]. split.
  - rewrite (write_effect_trace _ _ _ _ _ H4), (write_effect_trace _ _ _ _ _ H3),
      (write_effect_trace _ _ _ _ _ H2), (write_effect_trace _ _ _ _ _ H1).
    by rewrite <- !app_assoc.
  - intros Hsc (A0 & A1 & A2 & A3).
    destruct paths_distinct as (D01 & D02 & D03 & D12 & D13 & D23).
    destruct (write_effect_served _ _ _ _ _ n H1) as (-> & _ & Hsc1); [done..|].
    destruct (write_effect_served _ _ _ _ _ n H2) as (-> & _ & Hsc2);
      [done|by rewrite (write_effect_lookup_ne _ _ _ _ _ _ H1)|done|].
    destruct (write_effect_served _ _ _ _ _ 1%nat H3) as (-> & _ & Hsc3);
      [done| |done|].
    { by rewrite (write_effect_lookup_ne _ _ _ _ _ _ H2),
        (write_effect_lookup_ne _ _ _ _ _ _ H1). }
    destruct (write_effect_served _ _ _ _ _ 1%nat H4) as (-> & _ & Hsc4);
      [done| |done|].
    { by rewrite (write_effect_lookup_ne _ _ _ _ _ _ H3),
        (write_effect_lookup_ne _ _ _ _ _ _ H2),
        (write_effect_lookup_ne _ _ _ _ _ _ H1). }
    rewrite (write_effect_ok _ _ _ _ 1%nat H4), (write_effect_ok _ _ _ _ 1%nat H3),
      (write_effect_ok _ _ _ _ n H2), (write_effect_ok _ _ _ _ n H1); done.
Qed.

Lemma screen_on_resumes_witness :
  1 ≠ 0 ∧ low_power_mode initial_globals = false ∧
  strlen (scaling_max_freq initial_globals) = Some 7%nat ∧
  ∃ w' r1 r2 r3 r4,
    run (SetInteractive 1) initial_globals test_world = Some (initial_globals, w') ∧
    trace w' = trace test_world ++
      [SysfsWrite CPU0_SCALINGMAXFREQ_PATH (scaling_max_freq initial_globals) r1;
       SysfsWrite CPU1_SCALINGMAXFREQ_PATH (scaling_max_freq initial_globals) r2;
       SysfsWrite TOUCH_SUSPEND_PATH (literal "0") r3;
       SysfsWrite MPU3050_SUSPEND_PATH (literal "0") r4] ∧
    (script test_world = [] → all_attributes test_world →
     files w' =
       <[MPU3050_SUSPEND_PATH := chars "0"]>
       (<[TOUCH_SUSPEND_PATH := chars "0"]>
       (<[CPU1_SCALINGMAXFREQ_PATH := take 7 (scaling_max_freq initial_globals)]>
       (<[CPU0_SCALINGMAXFREQ_PATH := take 7 (scaling_max_freq initial_globals)]>
          (files test_world))))).
Proof.
  split; [lia|]. split; [reflexivity|]. split; [reflexivity|].
  apply (screen_on_resumes 1 initial_globals test_world 7); [lia|reflexivity|reflexivity].
Defined.

(** X11.  Initialisation reads CPU0 once and writes nothing: no attribute
    changes, the trace gains the one read, [normal_max_freq] and the flag
    are as before, and the one line logged shows the string now held by
    [scaling_max_freq]. *)
Theorem init_reads_only (g : globals) (w : world) :
  c_string (scaling_max_freq g) → live_fits w →
  ∃ g' w' len,
    run Init g w = Some (g', w') ∧
    files w' = files w ∧
    trace w' = trace w ++ [SysfsRead CPU0_SCALINGMAXFREQ_PATH MAX_BUF_SZ len] ∧
    logcat w' = logcat w ++ [ALOGI_stored (c_str (scaling_max_freq g'))] ∧
    normal_max_freq g' = normal_max_freq g ∧ low_power_mode g' = low_power_mode g.
Proof.
  intros Hcs Hfit. pose proof Hcs as [Hlen _].
  destruct (store_max_freq_spec Scaling_max_freq g w (or_intror Hlen))
    as (len & buf & w0 & _ & Est & Hf & Hl & Ht & _).
  destruct (store_max_freq_c_string Scaling_max_freq _ _ _ _ Hcs Hfit Est) as [_ [n Hn]].
  simpl in Hn.
  eexists _, (log (ALOGI_stored _) w0), len. split.
  { unfold run, p3_power_init, bind, get_globals, libc, io. rewrite Est. simpl.
    rewrite Hn. simpl. reflexivity. }
  simpl. rewrite Hf, Ht, Hl. do 2 (split; [done|]). split.
  - unfold c_str. by rewrite Hn.
  - by case_decide.
Qed.

Lemma init_reads_only_witness :
  c_string (scaling_max_freq initial_globals) ∧ live_fits test_world ∧
  ∃ g' w' len,
    run Init initial_globals test_world = Some (g', w') ∧
    files w' = files test_world ∧
    trace w' = trace test_world ++ [SysfsRead CPU0_SCALINGMAXFREQ_PATH MAX_BUF_SZ len] ∧
    logcat w' = logcat test_world ++ [ALOGI_stored (c_str (scaling_max_freq g'))] ∧
    normal_max_freq g' = normal_max_freq initial_globals ∧
    low_power_mode g' = low_power_mode initial_globals.
Proof.
  assert (c_string (scaling_max_freq initial_globals)) as H1
    by (split; [reflexivity|by eexists]).
  assert (live_fits test_world) as H2 by (vm_compute; lia).
  split; [exact H1|]. split; [exact H2|].
  exact (init_reads_only initial_globals test_world H1 H2).
Defined.

(** X12.  The low-power hint without data does not look at the screen: given
    after a screen-off call, in a world that serves the calls, it takes
    both CPU attributes from [456000] back to the string held by
    [normal_max_freq]. *)
Theorem low_power_disable_overrides_screen_off (g : globals) (w : world) (n : nat) :
  length (scaling_max_freq g) = MAX_BUF_SZ → strlen (normal_max_freq g) = Some n →
  serving w →
  ∃ g1 w1 w2,
    run (SetInteractive 0) g w = Some (g1, w1) ∧
    files w1 !! CPU0_SCALINGMAXFREQ_PATH = Some (chars "456000") ∧
    files w1 !! CPU1_SCALINGMAXFREQ_PATH = Some (chars "456000") ∧
    run (PowerHint POWER_HINT_LOW_POWER 0) g1 w1 = Some (set_low_power_mode false g1, w2) ∧
    files w2 !! CPU0_SCALINGMAXFREQ_PATH = Some (take n (normal_max_freq g)) ∧
    files w2 !! CPU1_SCALINGMAXFREQ_PATH = Some (take n (normal_max_freq g)).
Proof.
  intros Hlen Hn Hserv.
  destruct (set_interactive_off_spec g w (or_intror Hlen))
    as (g1 & w0 & r1 & w1 & r2 & w2 & r3 & w3 & r4 & w4 & Est & E & H1 & H2 & H3 & H4).
  destruct (screen_off_call g w Hlen)
    as (g1' & v0 & w4' & len & q1 & q2 & q3 & q4 & _ & _ & E' & _ & _ & Hfiles).
  assert (run (SetInteractive 0) g w = Some (g1, w4)) as Erun
    by (unfold run; by rewrite E).
  rewrite Erun in E'. injection E' as <- <-.
  destruct (Hfiles Hserv) as (_ & _ & F0 & F1).
  pose proof (serving_after_store Scaling_max_freq _ _ _ _ (or_intror Hlen) Est Hserv)
    as Hserv0.
  pose proof (serving_after_write _ _ _ _ _ H1 Hserv0) as Hserv1.
  pose proof (serving_after_write _ _ _ _ _ H2 Hserv1) as Hserv2.
  pose proof (serving_after_write _ _ _ _ _ H3 Hserv2) as Hserv3.
  pose proof (serving_after_write _ _ _ _ _ H4 Hserv3) as Hserv4.
  assert (normal_max_freq g1 = normal_max_freq g) as Hnorm.
  { apply store_max_freq_inv in Est as [[->|(_ & v & ->)] _]; done. }
  destruct (power_hint_disable_served g1 w4 n) as (w' & Ed & G0 & G1);
    [by rewrite Hnorm|done|].
  exists g1, w4, w'. rewrite <- Hnorm. done.
Qed.

Lemma low_power_disable_overrides_screen_off_witness :
  length (scaling_max_freq initial_globals) = MAX_BUF_SZ ∧
  strlen (normal_max_freq initial_globals) = Some 7%nat ∧ serving test_world ∧
  ∃ g1 w1 w2,
    run (SetInteractive 0) initial_globals test_world = Some (g1, w1) ∧
    files w1 !! CPU0_SCALINGMAXFREQ_PATH = Some (chars "456000") ∧
    files w1 !! CPU1_SCALINGMAXFREQ_PATH = Some (chars "456000") ∧
    run (PowerHint POWER_HINT_LOW_POWER 0) g1 w1 = Some (set_low_power_mode false g1, w2) ∧
    files w2 !! CPU0_SCALINGMAXFREQ_PATH = Some (take 7 (normal_max_freq initial_globals)) ∧
    files w2 !! CPU1_SCALINGMAXFREQ_PATH = Some (take 7 (normal_max_freq initial_globals)).
Proof.
  assert (serving test_world) as Hserv.
  { split; [reflexivity|]. split; by eexists. }
  split; [reflexivity|]. split; [reflexivity|]. split; [exact Hserv|].
  apply (low_power_disable_overrides_screen_off initial_globals test_world 7);
    [reflexivity|reflexivity|exact Hserv].
Defined.

(** ** FrequencyState: what the calls keep *)

Lemma store_max_freq_junk_witness :
  length (chars "garbage!!!") = MAX_BUF_SZ ∧
  (low_power_mode initial_globals = true ∨
   length (deref Normal_max_freq initial_globals) = MAX_BUF_SZ) ∧
  store_max_freq_with (chars "garbage!!!") Normal_max_freq initial_globals failing_world
  = store_max_freq Normal_max_freq initial_globals failing_world.
Proof.
  split; [reflexivity|]. split; [right; reflexivity|].
  apply (store_max_freq_junk (chars "garbage!!!") Normal_max_freq initial_globals
           failing_world); [reflexivity|right; reflexivity].
Defined.

(** X13.  Who writes what.  The initialisation and [p3_power_set_interactive]
    never change [normal_max_freq] or the flag; [p3_power_hint] never
    changes [scaling_max_freq]. *)
Theorem entry_points_frame (c : call) (g g' : globals) (w w' : world) :
  run c g w = Some (g', w') →
  match c with
  | Init | SetInteractive _ =>
      normal_max_freq g' = normal_max_freq g ∧ low_power_mode g' = low_power_mode g
  | PowerHint _ _ => scaling_max_freq g' = scaling_max_freq g
  end.
Proof.
  intros Hrun. apply run_inv in Hrun. destruct c as [|on|hint data].
  - by destruct Hrun as [->|(_ & _ & v & ->)].
  - by destruct Hrun as [->|(_ & _ & v & ->)].
  - destruct hint; try by subst.
    case_decide; [|by subst]. by destruct Hrun as [->|(_ & v & ->)].
Qed.

Lemma entry_points_frame_witness :
  ∃ w',
    run (PowerHint POWER_HINT_LOW_POWER 1) initial_globals (world_reading "760000")
    = Some (Globals (char_array MAX_BUF_SZ "1000000") (char_array MAX_BUF_SZ "760000") true,
            w') ∧
    scaling_max_freq
      (Globals (char_array MAX_BUF_SZ "1000000") (char_array MAX_BUF_SZ "760000") true)
    = scaling_max_freq initial_globals.
Proof.
  eexists. split; [vm_compute; reflexivity|].
  eapply (entry_points_frame (PowerHint POWER_HINT_LOW_POWER 1) initial_globals
           (Globals (char_array MAX_BUF_SZ "1000000") (char_array MAX_BUF_SZ "760000") true)
           (world_reading "760000") _).
  vm_compute; reflexivity.
Defined.

(** X14.  While the flag is set no call changes either stored frequency,
    whatever the attributes read. *)
Theorem low_power_mode_freezes_frequencies (c : call) (g g' : globals) (w w' : world) :
  low_power_mode g = true → run c g w = Some (g', w') →
  scaling_max_freq g' = scaling_max_freq g ∧ normal_max_freq g' = normal_max_freq g.
Proof.
  intros Hlp Hrun. apply run_inv in Hrun. destruct c as [|on|hint data].
  - destruct Hrun as [->|(? & _)]; [done|congruence].
  - destruct Hrun as [->|(? & _)]; [done|congruence].
  - destruct hint; try by subst.
    case_decide; [|by subst]. destruct Hrun as [->|(? & _)]; [done|congruence].
Qed.

Lemma low_power_mode_freezes_frequencies_witness :
  low_power_mode (set_low_power_mode true initial_globals) = true ∧
  ∃ w',
    run Init (set_low_power_mode true initial_globals) (world_reading "760000")
    = Some (set_low_power_mode true initial_globals, w') ∧
    scaling_max_freq (set_low_power_mode true initial_globals)
    = scaling_max_freq (set_low_power_mode true initial_globals) ∧
    normal_max_freq (set_low_power_mode true initial_globals)
    = normal_max_freq (set_low_power_mode true initial_globals).
Proof.
  split; [reflexivity|]. eexists. split; [vm_compute; reflexivity|].
  eapply (low_power_mode_freezes_frequencies Init
           (set_low_power_mode true initial_globals)
           (set_low_power_mode true initial_globals) (world_reading "760000") _);
    [reflexivity|vm_compute; reflexivity].
Defined.

Lemma run_flag (c : call) (g g' : globals) (w w' : world) :
  run c g w = Some (g', w') →
  low_power_mode g' =
    match c with
    | PowerHint POWER_HINT_LOW_POWER data => bool_decide (data ≠ 0)
    | _ => low_power_mode g
    end.
Proof.
  intros Hrun. apply run_inv in Hrun. destruct c as [|on|hint data].
  - by destruct Hrun as [->|(_ & _ & v & ->)].
  - by destruct Hrun as [->|(_ & _ & v & ->)].
  - destruct hint; try by subst.
    case_decide.
    + rewrite bool_decide_eq_true_2 by done. by destruct Hrun as [->|(_ & v & ->)].
    + rewrite bool_decide_eq_false_2 by (intros ?; done). by subst.
Qed.

Lemma run_steps_flag (ss : list step) (g0 g : globals) :
  run_steps ss g0 = Some g →
  low_power_mode g =
    fold_left (λ b s, match step_call s with
                      | PowerHint POWER_HINT_LOW_POWER data => bool_decide (data ≠ 0)
                      | _ => b
                      end) ss (low_power_mode g0).
Proof.
  revert g0. induction ss as [|s ss IH]; intros g0; simpl.
  - by intros [= ->].
  - destruct (run (step_call s) g0 (step_world s)) as [[g1 w1]|] eqn:Hs; simpl; [|done].
    intros Hrun. rewrite (IH _ Hrun). f_equal. rewrite (run_flag _ _ _ _ _ Hs).
    by destruct (step_call s) as [| |[] ?].
Qed.

(** X15.  The flag follows the hints: after any run from the initial state it
    is set exactly when the last low-power hint carried data, and it is
    off when no such hint was given. *)
Theorem low_power_mode_follows_hints (ss : list step) (g : globals) :
  run_steps ss initial_globals = Some g →
  low_power_mode g = low_power_requested ss.
Proof. intros Hrun. by rewrite (run_steps_flag _ _ _ Hrun). Qed.

Lemma low_power_mode_follows_hints_witness :
  run_steps [Step (PowerHint POWER_HINT_LOW_POWER 1) test_world;
             Step (SetInteractive 0) test_world;
             Step (PowerHint POWER_HINT_LAUNCH 0) test_world] initial_globals
  = Some (set_low_power_mode true initial_globals) ∧
  low_power_mode (set_low_power_mode true initial_globals)
  = low_power_requested
      [Step (PowerHint POWER_HINT_LOW_POWER 1) test_world;
       Step (SetInteractive 0) test_world;
       Step (PowerHint POWER_HINT_LAUNCH 0) test_world].
Proof.
  assert (run_steps [Step (PowerHint POWER_HINT_LOW_POWER 1) test_world;
                     Step (SetInteractive 0) test_world;
                     Step (PowerHint POWER_HINT_LAUNCH 0) test_world] initial_globals
          = Some (set_low_power_mode true initial_globals)) as H
    by (vm_compute; reflexivity).
  split; [exact H|]. exact (low_power_mode_follows_hints _ _ H).
Defined.

(** One call and [normal_max_freq]: it is as before, or the call is a
    low-power hint with data entered with the flag off and the array now
    holds the reading of CPU0, which does not begin with [456000]. *)
Lemma run_normal (c : call) (g g' : globals) (w w' : world) :
  sized g → run c g w = Some (g', w') →
  normal_max_freq g' = normal_max_freq g ∨
  (low_power_mode g = false ∧
   (∃ data, c = PowerHint POWER_HINT_LOW_POWER data ∧ data ≠ 0) ∧
   live_reading w = Some (normal_max_freq g') ∧
   take 6 (normal_max_freq g') ≠ chars "456000").
Proof.
  intros Hsz Hrun. pose proof Hsz as [Hs Hn].
  destruct c as [|on|hint data].
  - apply run_inv in Hrun. left. by destruct Hrun as [->|(_ & _ & v & ->)].
  - apply run_inv in Hrun. left. by destruct Hrun as [->|(_ & _ & v & ->)].
  - destruct (decide (hint = POWER_HINT_LOW_POWER)) as [->|Hh].
    + destruct (decide (data = 0)) as [->|Hdata].
      * apply run_inv in Hrun. simpl in Hrun. left. by subst.
      * destruct (power_hint_enable_spec data g w Hdata (or_intror Hn))
          as (g1 & w0 & r1 & w1 & r2 & w2 & Est & E & _).
        unfold run in Hrun. rewrite E in Hrun. simpl in Hrun. injection Hrun as <- _.
        destruct (store_max_freq_cases Normal_max_freq g g1 w w0 Hsz Est)
          as [->|(Hlp & buf & Hr & Hp & _ & ->)]; [by left|].
        right. split; [done|]. split; [by exists data|]. done.
    + apply run_inv in Hrun. left. destruct hint; try done; by subst.
Qed.

Lemma run_steps_sized (ss : list step) (g0 g : globals) :
  sized g0 → run_steps ss g0 = Some g → sized g.
Proof.
  revert g0. induction ss as [|s ss IH]; intros g0 Hsz; simpl.
  - by intros [= <-].
  - destruct (run (step_call s) g0 (step_world s)) as [[g1 w1]|] eqn:Hs; simpl; [|done].
    apply IH. by destruct (run_scaling _ _ _ _ _ Hsz Hs).
Qed.

Lemma captured_at_enable_snoc (ss : list step) (s : step) (v : list ascii) :
  captured_at_enable ss v → captured_at_enable (ss ++ [s]) v.
Proof.
  intros (ss1 & s0 & ss2 & g1 & data & -> & ?).
  exists ss1, s0, (ss2 ++ [s]), g1, data. split; [|done]. by rewrite <- app_assoc.
Qed.

(** X16.  In every state reached from the initial one, [normal_max_freq] never
    begins with [456000], so that leaving low-power mode never writes the
    low-power frequency back; it holds its initial value or a reading of
    CPU0 taken by a low-power hint with data that arrived with the flag
    off. *)
Theorem normal_max_freq_invariant (ss : list step) (g : globals) :
  run_steps ss initial_globals = Some g →
  take 6 (normal_max_freq g) ≠ chars "456000" ∧
  (normal_max_freq g = normal_max_freq initial_globals ∨
   captured_at_enable ss (normal_max_freq g)).
Proof.
  revert g. induction ss as [|s ss IH] using rev_ind; intros g Hrun.
  - injection Hrun as <-. split; [compute_done|by left].
  - rewrite run_steps_app in Hrun.
    destruct (run_steps ss initial_globals) as [g1|] eqn:Hss; simpl in Hrun; [|done].
    destruct (run (step_call s) g1 (step_world s)) as [[g2 w2]|] eqn:Hs;
      simpl in Hrun; [|done].
    injection Hrun as ->.
    destruct (IH g1 eq_refl) as (Hp & Hc).
    assert (sized g1) as Hsz by (by eapply (run_steps_sized ss initial_globals)).
    destruct (run_normal _ _ _ _ _ Hsz Hs)
      as [Heq|(Hlp & (data & Hcall & Hdata) & Hread & Hp')].
    + rewrite Heq. split; [done|].
      destruct Hc as [?|?]; [by left|right; by apply captured_at_enable_snoc].
    + split; [done|]. right. by exists ss, s, [], g1, data.
Qed.

Lemma normal_max_freq_invariant_witness :
  run_steps [Step (PowerHint POWER_HINT_LOW_POWER 1) (world_reading "760000")]
    initial_globals
  = Some (Globals (char_array MAX_BUF_SZ "1000000") (char_array MAX_BUF_SZ "760000") true) ∧
  take 6 (char_array MAX_BUF_SZ "760000") ≠ chars "456000" ∧
  (char_array MAX_BUF_SZ "760000" = normal_max_freq initial_globals ∨
   captured_at_enable [Step (PowerHint POWER_HINT_LOW_POWER 1) (world_reading "760000")]
     (char_array MAX_BUF_SZ "760000")).
Proof.
  assert (run_steps [Step (PowerHint POWER_HINT_LOW_POWER 1) (world_reading "760000")]
            initial_globals
          = Some (Globals (char_array MAX_BUF_SZ "1000000")
                    (char_array MAX_BUF_SZ "760000") true)) as H
    by (vm_compute; reflexivity).
  split; [exact H|]. exact (normal_max_freq_invariant _ _ H).
Defined.

(** ** Runs without undefined behaviour *)

Lemma run_total (c : call) (g : globals) (w : world) :
  well_formed g → live_fits w → is_Some (run c g w).
Proof.
  intros Hwf Hfit. pose proof Hwf as [[Hls Hts] [Hln Htn]]. unfold run.
  destruct c as [|on|hint data].
  - destruct (store_max_freq_spec Scaling_max_freq g w (or_intror Hls))
      as (len & buf & w0 & _ & Est & _).
    pose proof (store_max_freq_well_formed _ _ _ _ _ Hwf Hfit Est) as [[_ Hterm] _].
    destruct (init_spec g w _ w0 Est Hterm) as (s & E). rewrite E. by eexists.
  - destruct (decide (on = 0)) as [->|Hon].
    + destruct (set_interactive_off_spec g w (or_intror Hls))
        as (g1 & w0 & r1 & w1 & r2 & w2 & r3 & w3 & r4 & w4 & _ & E & _).
      rewrite E. by eexists.
    + destruct (low_power_mode g) eqn:Hlp.
      * destruct (set_interactive_on_low_power_spec on g w Hon Hlp)
          as (w0 & r1 & w1 & r2 & w2 & _ & E & _).
        rewrite E. by eexists.
      * destruct (set_interactive_on_normal_spec on g w Hon Hlp Hts)
          as (r1 & w1 & r2 & w2 & r3 & w3 & r4 & w4 & E & _).
        rewrite E. by eexists.
  - destruct (decide (hint = POWER_HINT_LOW_POWER)) as [->|Hh].
    + destruct (decide (data = 0)) as [->|Hdata].
      * destruct (power_hint_disable_spec g w Htn) as (r1 & w1 & r2 & w2 & E & _).
        rewrite E. by eexists.
      * destruct (power_hint_enable_spec data g w Hdata (or_intror Hln))
          as (g' & w0 & r1 & w1 & r2 & w2 & _ & E & _).
        rewrite E. by eexists.
    + destruct hint; try done; by eexists.
Qed.

(** X17.  As long as the value of CPU0 is shorter than the buffer in the world
    of every call, a run of any length from a well-formed state never
    meets undefined behaviour, whatever else fails, and ends in a
    well-formed state: every array still holds a terminated string. *)
Theorem fitting_runs_are_defined (ss : list step) (g : globals) :
  well_formed g → Forall (λ s, live_fits (step_world s)) ss →
  ∃ g', run_steps ss g = Some g' ∧ well_formed g'.
Proof.
  revert g. induction ss as [|s ss IH]; intros g Hwf Hall; simpl.
  - by exists g.
  - apply Forall_cons in Hall as [Hfit Hall].
    destruct (run_total (step_call s) g (step_world s) Hwf Hfit) as [[g1 w1] Hs].
    rewrite Hs. simpl. apply IH; [|done]. by eapply run_well_formed.
Qed.

Lemma fitting_runs_are_defined_witness :
  well_formed initial_globals ∧
  Forall (λ s, live_fits (step_world s))
    [Step Init failing_world; Step (SetInteractive 0) failing_world;
     Step (PowerHint POWER_HINT_LOW_POWER 1) (world_reading "760000");
     Step (SetInteractive 1) test_world] ∧
  ∃ g', run_steps
          [Step Init failing_world; Step (SetInteractive 0) failing_world;
           Step (PowerHint POWER_HINT_LOW_POWER 1) (world_reading "760000");
           Step (SetInteractive 1) test_world] initial_globals = Some g' ∧
        well_formed g'.
Proof.
  assert (Forall (λ s, live_fits (step_world s))
            [Step Init failing_world; Step (SetInteractive 0) failing_world;
             Step (PowerHint POWER_HINT_LOW_POWER 1) (world_reading "760000");
             Step (SetInteractive 1) test_world]) as Hall
    by (repeat constructor; vm_compute; lia).
  split; [exact initial_globals_well_formed|]. split; [exact Hall|].
  exact (fitting_runs_are_defined _ _ initial_globals_well_formed Hall).
Defined.

(** X18.  The captures never overflow.  In every state reached from the
    initial one both arrays have [MAX_BUF_SZ] characters, and from such a
    state the screen-off call and the low-power hint with data are
    defined in every world, even one whose CPU0 value fills the buffer. *)
Theorem capture_calls_always_defined (ss : list step) (g : globals) (w : world)
    (data : Z) :
  run_steps ss initial_globals = Some g → data ≠ 0 →
  sized g ∧
  is_Some (run (SetInteractive 0) g w) ∧
  is_Some (run (PowerHint POWER_HINT_LOW_POWER data) g w).
Proof.
  intros Hrun Hdata.
  assert (sized g) as Hsz by (by eapply (run_steps_sized ss initial_globals)).
  pose proof Hsz as [Hs Hn]. split; [done|]. unfold run. split.
  - destruct (set_interactive_off_spec g w (or_intror Hs))
      as (g1 & w0 & r1 & w1 & r2 & w2 & r3 & w3 & r4 & w4 & _ & E & _).
    rewrite E. by eexists.
  - destruct (power_hint_enable_spec data g w Hdata (or_intror Hn))
      as (g' & w0 & r1 & w1 & r2 & w2 & _ & E & _).
    rewrite E. by eexists.
Qed.

Lemma capture_calls_always_defined_witness :
  run_steps [Step (SetInteractive 0) long_world] initial_globals
  = Some (Globals (chars "1000000000") (char_array MAX_BUF_SZ "1000000") false) ∧
  1 ≠ 0 ∧
  sized (Globals (chars "1000000000") (char_array MAX_BUF_SZ "1000000") false) ∧
  is_Some (run (SetInteractive 0)
             (Globals (chars "1000000000") (char_array MAX_BUF_SZ "1000000") false)
             long_world) ∧
  is_Some (run (PowerHint POWER_HINT_LOW_POWER 1)
             (Globals (chars "1000000000") (char_array MAX_BUF_SZ "1000000") false)
             long_world).
Proof.
  assert (run_steps [Step (SetInteractive 0) long_world] initial_globals
          = Some (Globals (chars "1000000000") (char_array MAX_BUF_SZ "1000000") false))
    as H by (vm_compute; reflexivity).
  assert (1 ≠ 0) as H1 by lia.
  split; [exact H|]. split; [exact H1|].
  exact (capture_calls_always_defined _ _ long_world 1 H H1).
Defined.
